(** * Offline-queue replay of [app/scripts/helper/schedule.js]

    A shallow embedding of class [Schedule].  First the two operations
    that touch the durable queue of failed session API updates,
    [replayQueuedRequests] and the static [clearQueuedRequests]; then
    [generateFilters], and the operations on the schedule, the template
    and the user's sessions.

    The collaborators the class calls ([simpleDB], [IOWA.Request],
    [IOWA.Elements.Toast], [navigator]) are outside the class.  Their
    observable effects are recorded in a [World]; what they answer is
    fixed by an [Env].

    Asynchrony.  The program is single-threaded and suspends only where
    it waits for a promise.  A promise is modelled by the work that runs
    when it settles, and the world a call leaves is the world once every
    promise the call created has settled.  The promises of the replayed
    requests settle here in the order in which they were pushed; the
    store they leave and their joint outcome are the same in any other
    order ([settle_order_irrelevant]). *)

From stdpp Require Import base option list strings gmap fin_maps sorting pretty.

Open Scope string_scope.
Open Scope list_scope.

(** ** JavaScript values and promise settlements *)

#[warnings="-register-all"]
Inductive value : Type :=
  | VUndefined
  | VBool (b : bool)
  | VString (s : string)
  | VArray (xs : list value).

(** [String(v)], as applied to a database name handed to IndexedDB. *)
Fixpoint ToString (v : value) : string :=
  match v with
  | VUndefined => "undefined"
  | VBool b => if b then "true" else "false"
  | VString s => s
  | VArray xs =>
      (fix join (ys : list value) : string :=
         match ys with
         | [] => ""
         | y :: ys' =>
             let here := match y with VUndefined => "" | _ => ToString y end in
             match ys' with
             | [] => here
             | _ :: _ => here +:+ "," +:+ join ys'
             end
         end) xs
  end.

(** Why a promise was rejected. *)
Inductive reason : Type :=
  | StoreUnavailable (db : string)
  | ReplayRequestFailed (method url : string)
  | StoreDeleteFailed (db key : string)
  | DatabaseDeleteFailed (db : string).

Inductive settled (A : Type) : Type :=
  | Fulfilled (a : A)
  | Rejected (r : reason).
Arguments Fulfilled {A} a.
Arguments Rejected {A} r.

Definition is_fulfilled {A} (s : settled A) : bool :=
  match s with Fulfilled _ => true | Rejected _ => false end.

(** ** The world outside the class *)

(** One call of [IOWA.Request.xhrPromise(method, url, auth, payload)]. *)
Record Request : Type := mkRequest {
  req_method : string;
  req_url : string;
  req_auth : bool;
  req_payload : option value
}.

(** [stores]: the IndexedDB databases behind [simpleDB], by name; each is a
    mapping from key to value (here: request URL to HTTP method).  A
    database that does not exist reads as an empty one, as a first
    [simpleDB.open] of it creates it empty.
    [opened], [requests], [toasts]: the calls made so far to
    [simpleDB.open], [IOWA.Request.xhrPromise] and
    [IOWA.Elements.Toast.showMessage], oldest first. *)
Record World : Type := mkWorld {
  stores : gmap string (gmap string string);
  opened : list string;
  requests : list Request;
  toasts : list string
}.

Definition db_contents (w : World) (db : string) : gmap string string :=
  default ∅ (stores w !! db).

Definition set_stores (f : gmap string (gmap string string) → gmap string (gmap string string))
    (w : World) : World :=
  mkWorld (f (stores w)) (opened w) (requests w) (toasts w).

Definition log_open (db : string) (w : World) : World :=
  mkWorld (stores w) (opened w ++ [db]) (requests w) (toasts w).

Definition log_request (r : Request) (w : World) : World :=
  mkWorld (stores w) (opened w) (requests w ++ [r]) (toasts w).

Definition log_toast (text : string) (w : World) : World :=
  mkWorld (stores w) (opened w) (requests w) (toasts w ++ [text]).

(** What the environment answers.
    - [serviceWorker]: ['serviceWorker' in navigator];
    - [open_ok db]: [simpleDB.open(db)] fulfils;
    - [forEach_ok db]: the cursor read behind [db.forEach] can be made;
    - [cursor]: the order in which [db.forEach] visits the entries of a
      store, some enumeration of them;
    - [xhr_ok r]: the request [r] is answered with success;
    - [delete_ok db key]: [db.delete(key)] fulfils;
    - [deleteDatabase_ok db]: [simpleDB.delete(db)] fulfils. *)
Record Env : Type := mkEnv {
  serviceWorker : bool;
  open_ok : string → bool;
  forEach_ok : string → bool;
  cursor : gmap string string → list (string * string);
  cursor_perm : ∀ m, cursor m ≡ₚ map_to_list m;
  xhr_ok : Request → bool;
  delete_ok : string → string → bool;
  deleteDatabase_ok : string → bool
}.

(** ** Promises

    A promise is modelled by the work that remains until it settles: run
    on the world, it performs the effects of its continuations and gives
    its settlement.  Effects made at the moment a promise is created
    (sending a request) are made by the function that creates it.  On
    every path of the two operations below each promise created is
    waited for, so that no continuation is left out. *)
Definition Promise (A : Type) : Type := World → settled A * World.

Definition Promise_resolve {A} (a : A) : Promise A :=
  λ w, (Fulfilled a, w).

Definition Promise_reject {A} (r : reason) : Promise A :=
  λ w, (Rejected r, w).

(** [p.then(f)] *)
Definition then_ {A B} (p : Promise A) (f : A → Promise B) : Promise B :=
  λ w, match p w with
       | (Fulfilled a, w') => f a w'
       | (Rejected r, w') => (Rejected r, w')
       end.

(** [p.catch(h)] *)
Definition catch_ {A} (p : Promise A) (h : reason → Promise A) : Promise A :=
  λ w, match p w with
       | (Fulfilled a, w') => (Fulfilled a, w')
       | (Rejected r, w') => h r w'
       end.

(** Every promise of the array settles, whether or not another one was
    rejected; the result is the array of the values, or the rejection of
    the first promise that was rejected. *)
Fixpoint settle_all (ps : list (Promise value)) : Promise (list value) :=
  match ps with
  | [] => Promise_resolve []
  | p :: ps' => λ w,
      let '(r, w1) := p w in
      let '(rs, w2) := settle_all ps' w1 in
      (match r, rs with
       | Fulfilled v, Fulfilled vs => Fulfilled (v :: vs)
       | Fulfilled _, Rejected e => Rejected e
       | Rejected e, _ => Rejected e
       end, w2)
  end.

(** [Promise.all(ps)] *)
Definition Promise_all (ps : list (Promise value)) : Promise value :=
  then_ (settle_all ps) (λ vs, Promise_resolve (VArray vs)).

(** ** Collaborators of the class *)

Section Collaborators.

Variable env : Env.

(** Modelled from the spec: [simpleDB.open(name)], the store's
    [open(name) → store handle]; the handle is the database's name, and
    the promise is rejected when the store is unavailable. *)
Definition simpleDB_open (name : value) : Promise string :=
  λ w, let db := ToString name in
       if open_ok env db
       then (Fulfilled db, log_open db w)
       else (Rejected (StoreUnavailable db), log_open db w).

(** Modelled from the spec: [simpleDB.delete(name)], the deletion of a
    whole durable store, which may fail (StoreDeleteFailed). *)
Definition simpleDB_delete (name : value) : Promise value :=
  λ w, let db := ToString name in
       if deleteDatabase_ok env db
       then (Fulfilled VUndefined, set_stores (delete db) w)
       else (Rejected (DatabaseDeleteFailed db), w).

(** Modelled from the spec: [db.delete(key)], the store's
    [delete(key) → completion signal]; deleting a key that is not there
    does nothing. *)
Definition db_delete (db key : string) : Promise value :=
  λ w, if delete_ok env db key
       then (Fulfilled VUndefined, set_stores (alter (delete key) db) w)
       else (Rejected (StoreDeleteFailed db key), w).

(** The visits of [db.forEach(callback)]: [callback(key, value)] for each
    entry in turn.  [st] is the state the callback closes over and
    updates. *)
Fixpoint visit_all {St} (callback : string → string → St → World → St * World)
    (entries : list (string * string)) (st : St) (w : World) : St * World :=
  match entries with
  | [] => (st, w)
  | (key, val) :: rest =>
      let '(st', w') := callback key val st w in
      visit_all callback rest st' w'
  end.

(** Modelled from the spec: [db.forEach(callback)], the store's
    [forEach(visit(key, value)) → completion signal]; fulfilled once every
    entry was visited, rejected without a visit when the store cannot be
    read. *)
Definition db_forEach {St} (db : string)
    (callback : string → string → St → World → St * World) (st : St) : Promise St :=
  λ w, if forEach_ok env db
       then let '(st', w') := visit_all callback (cursor env (db_contents w db)) st w in
            (Fulfilled st', w')
       else (Rejected (StoreUnavailable db), w).

(** The answer to a request that was sent. *)
Definition xhr_answer (r : Request) : Promise value :=
  λ w, if xhr_ok env r
       then (Fulfilled VUndefined, w)
       else (Rejected (ReplayRequestFailed (req_method r) (req_url r)), w).

(** Modelled from the spec: [IOWA.Request.xhrPromise(method, url, auth,
    payload)], the requester's [send(method, url, authenticated, payload?)
    → response or failure]; the request is sent at the call, and the
    promise returned settles with the answer. *)
Definition xhrPromise (method url : string) (auth : bool) (payload : option value)
    (w : World) : Promise value * World :=
  let r := mkRequest method url auth payload in
  (xhr_answer r, log_request r w).

(** Modelled from the spec: [IOWA.Elements.Toast.showMessage(text)], the
    notification sink, fire-and-forget; here as the body of a handler. *)
Definition showMessage (text : string) : Promise value :=
  λ w, (Fulfilled VUndefined, log_toast text w).

End Collaborators.

(** ** Class [Schedule] *)

Module Schedule.

(** The static data members of the class, [Schedule.<name>]: the three
    getters it declares.  Reading any other name gives [undefined]. *)
Definition static_get (name : string) : value :=
  if decide (name = "QUEUED_SESSION_API_UPDATES_DB_NAME")
  then VString "toolbox-offline-session-updates"
  else if decide (name = "SCHEDULE_ENDPOINT")
  then VString "api/v1/schedule"
  else if decide (name = "SURVEY_ENDPOINT")
  then VString "api/v1/user/survey"
  else VUndefined.

Section WithEnv.

Variable env : Env.

(** The callback given to [db.forEach]; [replayPromises] is the array it
    pushes to. *)
Definition replay_callback (db : string) (url method : string)
    (replayPromises : list (Promise value)) (w : World)
    : list (Promise value) * World :=
  let '(xhr, w') := xhrPromise env method url true None w in
  let replayPromise :=
    then_ xhr (λ _,
      then_ (db_delete env db url) (λ _,
        Promise_resolve (VBool true))) in
  (replayPromises ++ [replayPromise], w').

Definition replayQueuedRequests : Promise value :=
  if serviceWorker env then
    let queuedSessionApiUpdates :=
      catch_
        (then_ (simpleDB_open env (static_get "QUEUED_SESSION_API_UPDATES_DB_NAME")) (λ db,
           then_ (db_forEach env db (replay_callback db) []) (λ replayPromises,
             if decide (length replayPromises ≠ 0)
             then then_ (Promise_all replayPromises) (λ _,
                    showMessage "My Schedule was updated with offline changes.")
             else Promise_resolve VUndefined)))
        (λ _, showMessage "Offline changes could not be applied to My Schedule.") in
    Promise_all [queuedSessionApiUpdates]
  else Promise_resolve VUndefined.

Definition clearQueuedRequests : Promise value :=
  simpleDB_delete env (static_get "QUEUED_SESSION_UPDATES_DB_NAME").

End WithEnv.

End Schedule.

(** ** Vocabulary of the properties *)

(** The name of the durable queue of session API updates. *)
Definition QUEUE : string := "toolbox-offline-session-updates".

(** The persisted queue: request URL to HTTP method. *)
Definition queue (w : World) : gmap string string := db_contents w QUEUE.

(** The request replayed for the entry [(url, method)]. *)
Definition request_of (e : string * string) : Request :=
  mkRequest e.2 e.1 true None.

Definition MSG_REPLAYED : string :=
  "My Schedule was updated with offline changes.".

Definition MSG_REPLAY_FAILED : string :=
  "Offline changes could not be applied to My Schedule.".

(** The replay of an entry went through: its request was answered with
    success and the entry could then be deleted. *)
Definition replayed (env : Env) (db : string) (e : string * string) : bool :=
  xhr_ok env (request_of e) && delete_ok env db e.1.

(** The promise pushed by [replay_callback] for an entry. *)
Definition pushed (env : Env) (db : string) (e : string * string) : Promise value :=
  then_ (xhr_answer env (request_of e)) (λ _,
    then_ (db_delete env db e.1) (λ _, Promise_resolve (VBool true))).

(** The stores after the promise pushed for the entry [e] of [db] settled. *)
Definition drain_step (env : Env) (db : string) (st : gmap string (gmap string string))
    (e : string * string) : gmap string (gmap string string) :=
  if replayed env db e then alter (delete e.1) db st else st.

Definition drain (env : Env) (db : string) (l : list (string * string))
    (st : gmap string (gmap string string)) : gmap string (gmap string string) :=
  foldl (drain_step env db) st l.

(** The notification of one replay that visited the entries [l]. *)
Definition replay_toasts (env : Env) (l : list (string * string)) : list string :=
  match l with
  | [] => []
  | _ :: _ =>
      if forallb (replayed env QUEUE) l
      then [MSG_REPLAYED]
      else [MSG_REPLAY_FAILED]
  end.

(** A browser with service worker support [sw], whose store opens as
    [store_opens], reads and deletes without failure, and whose server
    answers every request with success but those for the URLs [failing]. *)
Definition browser (sw store_opens : bool) (failing : list string) : Env :=
  mkEnv sw (λ _, store_opens) (λ _, true)
        map_to_list (λ m, reflexivity (map_to_list m))
        (λ r, bool_decide (req_url r ∉ failing))
        (λ _ _, true) (λ _, true).

(** A world that holds the queue [q] and has seen no call yet. *)
Definition world_with (q : gmap string string) : World :=
  mkWorld {[ QUEUE := q ]} [] [] [].

Definition two_entries : gmap string string :=
  {[ "A" := "GET"; "B" := "PUT" ]}.

Definition one_survey : gmap string string :=
  {[ "api/v1/user/survey/42" := "PUT" ]}.

(** ** [generateFilters]

    The tags of the schedule and the filters made of them. *)

(** A tag, with the fields [generateFilters] reads. *)
Record Tag : Type := mkTag {
  tag_category : string;
  tag_name : string;
  order_in_category : Z
}.

(** The object returned by [generateFilters]. *)
Record Filters : Type := mkFilters {
  filterSessionTypes : list string;
  filterThemes : list string;
  filterTopics : list string
}.

(** A comparison function that [Array.prototype.sort] can rely on. *)
Definition consistent_compare {A} (cmp : A → A → Z) : Prop :=
  (∀ a b, (cmp a b < 0)%Z ↔ (0 < cmp b a)%Z) ∧
  (∀ a b c, (cmp a b ≤ 0)%Z → (cmp b c ≤ 0)%Z → (cmp a c ≤ 0)%Z).

(** What the JavaScript engine leaves open.
    - [Object_keys o]: [Object.keys(o)], the keys of [o] in the order of
      the engine;
    - [Array_sort cmp l]: [l.sort(cmp)], some rearrangement of [l], in the
      order of [cmp] when [cmp] is consistent; elements that compare equal
      come in any order. *)
Record Engine : Type := mkEngine {
  Object_keys : ∀ {A : Type}, gmap string A → list string;
  Object_keys_perm :
    ∀ (A : Type) (o : gmap string A), Object_keys o ≡ₚ (map_to_list o).*1;
  Array_sort : ∀ {A : Type}, (A → A → Z) → list A → list A;
  Array_sort_perm :
    ∀ (A : Type) (cmp : A → A → Z) (l : list A), Array_sort cmp l ≡ₚ l;
  Array_sort_sorted :
    ∀ (A : Type) (cmp : A → A → Z) (l : list A),
      consistent_compare cmp →
      StronglySorted (λ a b, (cmp a b ≤ 0)%Z) (Array_sort cmp l)
}.

(** The comparison function given to [sort]. *)
Definition compare_tags (a b : Tag) : Z :=
  if decide (order_in_category a < order_in_category b)%Z then (-1)%Z
  else if decide (order_in_category a > order_in_category b)%Z then 1%Z
  else 0%Z.

(** One turn of the loop over [sortedTags]: the [switch] on the category. *)
Definition push_tag (fs : Filters) (tag : Tag) : Filters :=
  if decide (tag_category tag = "TYPE") then
    mkFilters (filterSessionTypes fs ++ [tag_name tag]) (filterThemes fs) (filterTopics fs)
  else if decide (tag_category tag = "TOPIC") then
    mkFilters (filterSessionTypes fs) (filterThemes fs) (filterTopics fs ++ [tag_name tag])
  else if decide (tag_category tag = "THEME") then
    mkFilters (filterSessionTypes fs) (filterThemes fs ++ [tag_name tag]) (filterTopics fs)
  else fs.

(** [generateFilters(tags = {})]; [None] is a call without argument. *)
Definition generateFilters (engine : Engine) (tags : option (gmap string Tag)) : Filters :=
  let tags := default ∅ tags in
  let sortedTags :=
    Array_sort engine compare_tags
      (omap (λ tag, tags !! tag) (Object_keys engine tags)) in
  foldl push_tag (mkFilters [] [] []) sortedTags.

(** The tags of category [c] among [l], and their names. *)
Definition of_category (c : string) (l : list Tag) : list Tag :=
  filter (λ t, tag_category t = c) l.

(** [names] lists the tags of category [c] among [all], each once, by
    ascending [order_in_category]. *)
Definition lists_category (all : list Tag) (c : string) (names : list string) : Prop :=
  ∃ ts, names = tag_name <$> ts ∧
        ts ≡ₚ of_category c all ∧
        StronglySorted (λ a b, (order_in_category a ≤ order_in_category b)%Z) ts.

(** An engine for the examples: keys in the order of the map, merge sort. *)
Definition cmp_le {A} (cmp : A → A → Z) : relation A :=
  λ a b, (cmp a b ≤ 0)%Z.

#[global] Instance cmp_le_dec {A} (cmp : A → A → Z) (a b : A) :
  Decision (cmp_le cmp a b).
Proof. unfold cmp_le. apply _. Defined.

Lemma merge_sort_of_consistent (A : Type) (cmp : A → A → Z) (l : list A) :
  consistent_compare cmp →
  StronglySorted (λ a b, (cmp a b ≤ 0)%Z) (merge_sort (cmp_le cmp) l).
Proof.
  intros [Hanti Htrans].
  assert (Transitive (cmp_le cmp)) by (intros a b c; apply Htrans).
  assert (Total (cmp_le cmp)).
  { intros a b. unfold cmp_le.
    destruct (decide (cmp a b ≤ 0)%Z) as [|Hab]; [by left|right].
    assert (cmp b a < 0)%Z by (apply Hanti; lia). lia. }
  apply (StronglySorted_merge_sort (cmp_le cmp)).
Qed.

Definition merge_engine : Engine :=
  mkEngine (λ A o, (map_to_list o).*1)
           (λ A o, reflexivity _)
           (λ A cmp, merge_sort (cmp_le cmp))
           (λ A cmp l, merge_sort_Permutation _ l)
           merge_sort_of_consistent.

Definition some_tags : gmap string Tag :=
  {[ "topic_web" := mkTag "TOPIC" "Web" 2;
     "type_sessions" := mkTag "TYPE" "Sessions" 1;
     "topic_android" := mkTag "TOPIC" "Android" 1;
     "theme_play" := mkTag "THEME" "Play" 1;
     "track_x" := mkTag "TRACK" "X" 0 ]}.

(** ** The schedule, the template and the other services

    The rest of the class works on the instance ([this]), on the template
    of the page ([IOWA.Elements.Template]) and through further services
    ([IOWA.Auth], [IOWA.IOFirebase], [IOWA.Notifications],
    [IOWA.Analytics]).  Objects are given by the fields the class reads and
    the rest of their fields.  The flags [saved] and [rated] of a session
    are not among them: the class only writes them, through the template,
    and those writes are kept in [calls]. *)

Record Session : Type := mkSession {
  session_id : string;
  session_fields : list (string * value)
}.

Record ScheduleData : Type := mkScheduleData {
  sessions : list Session;
  schedule_fields : list (string * value)
}.

(** What is thrown, or what a promise is rejected with. *)
Inductive thrown : Type :=
  | JsError (name message : string)   (* an [Error] object *)
  | NetworkEvent                      (* an [XMLHttpRequestProgressEvent] *)
  | Value (v : value).                (* any other value *)

(** [String(error)] *)
Definition thrown_string (error : thrown) : string :=
  match error with
  | JsError name message =>
      if decide (name = "") then message
      else if decide (message = "") then name
      else name +:+ ": " +:+ message
  | NetworkEvent => "[object XMLHttpRequestProgressEvent]"
  | Value v => ToString v
  end.

(** [error && error.name === name] *)
Definition thrown_named (name : string) (error : thrown) : bool :=
  match error with
  | JsError n _ => bool_decide (n = name)
  | NetworkEvent | Value _ => false
  end.

(** [error instanceof XMLHttpRequestProgressEvent] *)
Definition is_progress_event (error : thrown) : bool :=
  match error with NetworkEvent => true | _ => false end.

(** How a call ends, or how the promise it returns settles; [Pending]
    is a promise that does not settle. *)
Inductive outcome (A : Type) : Type :=
  | Returned (a : A)
  | Threw (error : thrown)
  | Pending.
Arguments Returned {A} a.
Arguments Threw {A} error.
Arguments Pending {A}.

(** The fields of the instance. *)
Record Instance : Type := mkInstance {
  scheduleData_ : option ScheduleData;
  cache_userSavedSessions : list value;
  cache_userSavedSurveys : list value;
  scheduleDeferredPromise : option nat;
  scheduleDeferredPromiseResolver : option nat
}.

(** [new Schedule()] *)
Definition new_Schedule : Instance :=
  mkInstance None [] [] None None.

(** The properties of [template.app] that the class reads or sets. *)
Record Template : Type := mkTemplate {
  app_scheduleData : option ScheduleData;
  app_filterSessionTypes : list string;
  app_filterThemes : list string;
  app_filterTopics : list string;
  app_scheduleFetchingUserData : bool;
  app_savedSessions : list string;
  app_savedSurveys : list string;
  app_dontAutoSubscribe : bool
}.

(** The calls made to the other services, and the calls of
    [template.set] on a path below the sessions of [app.scheduleData]. *)
Inductive Call : Type :=
  | TrackEvent (category action label : string)
  | WaitForSignedIn (message : string)
  | ToggleSession (sessionId : string) (save : bool)
  | MarkSessionRated (sessionId : string)
  | SubscribePromise (dontAutoSubscribe : bool)
  | ConsoleLog (text : string)
  | TemplateSetFlag (path : string) (v : bool).

(** The argument of [resolveSchedulePromise]. *)
Record Loaded : Type := mkLoaded {
  loaded_scheduleData : ScheduleData;
  loaded_tags : Filters
}.

(** [deferreds]: the deferred objects made by [IOWA.Util.createDeferred],
    in the order of their creation, each pending ([None]) or resolved. *)
Record App : Type := mkApp {
  this : Instance;
  deferreds : list (option Loaded);
  template : Template;
  calls : list Call;
  world : World
}.

Definition set_this (f : Instance → Instance) (a : App) : App :=
  mkApp (f (this a)) (deferreds a) (template a) (calls a) (world a).

Definition set_deferreds (f : list (option Loaded) → list (option Loaded)) (a : App) : App :=
  mkApp (this a) (f (deferreds a)) (template a) (calls a) (world a).

Definition set_template (f : Template → Template) (a : App) : App :=
  mkApp (this a) (deferreds a) (f (template a)) (calls a) (world a).

Definition log_call (c : Call) (a : App) : App :=
  mkApp (this a) (deferreds a) (template a) (calls a ++ [c]) (world a).

Definition set_world (f : World → World) (a : App) : App :=
  mkApp (this a) (deferreds a) (template a) (calls a) (f (world a)).

Definition with_scheduleData_ (d : option ScheduleData) (i : Instance) : Instance :=
  mkInstance d (cache_userSavedSessions i) (cache_userSavedSurveys i)
             (scheduleDeferredPromise i) (scheduleDeferredPromiseResolver i).

Definition with_cache_userSavedSessions (l : list value) (i : Instance) : Instance :=
  mkInstance (scheduleData_ i) l (cache_userSavedSurveys i)
             (scheduleDeferredPromise i) (scheduleDeferredPromiseResolver i).

Definition with_scheduleDeferred (k : nat) (i : Instance) : Instance :=
  mkInstance (scheduleData_ i) (cache_userSavedSessions i) (cache_userSavedSurveys i)
             (Some k) (Some k).

Definition with_app_schedule (d : ScheduleData) (tags : Filters) (t : Template) : Template :=
  mkTemplate (Some d) (filterSessionTypes tags) (filterThemes tags) (filterTopics tags)
             (app_scheduleFetchingUserData t) (app_savedSessions t)
             (app_savedSurveys t) (app_dontAutoSubscribe t).

Definition with_app_scheduleFetchingUserData (b : bool) (t : Template) : Template :=
  mkTemplate (app_scheduleData t) (app_filterSessionTypes t) (app_filterThemes t)
             (app_filterTopics t) b (app_savedSessions t)
             (app_savedSurveys t) (app_dontAutoSubscribe t).

Definition with_app_savedSessions (l : list string) (t : Template) : Template :=
  mkTemplate (app_scheduleData t) (app_filterSessionTypes t) (app_filterThemes t)
             (app_filterTopics t) (app_scheduleFetchingUserData t) l
             (app_savedSurveys t) (app_dontAutoSubscribe t).

Definition with_app_savedSurveys (l : list string) (t : Template) : Template :=
  mkTemplate (app_scheduleData t) (app_filterSessionTypes t) (app_filterThemes t)
             (app_filterTopics t) (app_scheduleFetchingUserData t)
             (app_savedSessions t) l (app_dontAutoSubscribe t).

Definition with_app_dontAutoSubscribe (b : bool) (t : Template) : Template :=
  mkTemplate (app_scheduleData t) (app_filterSessionTypes t) (app_filterThemes t)
             (app_filterTopics t) (app_scheduleFetchingUserData t)
             (app_savedSessions t) (app_savedSurveys t) b.

(** What the services answer, beside the [Env] of the store and the
    requests.
    - [xhr_failure r]: what the promise of a request without success is
      rejected with;
    - [schedule_response], [survey_response r]: the body answered to the
      request of the schedule and to a survey request;
    - [progress_event_defined]: the global [XMLHttpRequestProgressEvent]
      exists;
    - [signIn message]: [IOWA.Auth.waitForSignedIn(message)];
    - [toggleSession_result id save]: [IOWA.IOFirebase.toggleSession];
    - [subscribe_result flag]: [IOWA.Notifications.subscribePromise];
    - [window_ENV]: [window.ENV]. *)
Record Services : Type := mkServices {
  base : Env;
  xhr_failure : Request → thrown;
  schedule_response : ScheduleData;
  survey_response : Request → list string;
  progress_event_defined : bool;
  signIn : string → outcome unit;
  toggleSession_result : string → bool → outcome unit;
  subscribe_result : bool → outcome unit;
  window_ENV : string
}.

(** A call, or the promise it returns, as the work until it ends: the
    state it leaves is the state once the handlers attached to the
    promises it settles have run. *)
Definition Task (A : Type) : Type := App → outcome A * App.

Definition ret {A} (x : A) : Task A := λ a, (Returned x, a).

Definition throw {A} (error : thrown) : Task A := λ a, (Threw error, a).

(** [t.then(f)], and [t; f] for calls in sequence. *)
Definition and_then {A B} (t : Task A) (f : A → Task B) : Task B :=
  λ a, match t a with
       | (Returned x, a') => f x a'
       | (Threw error, a') => (Threw error, a')
       | (Pending, a') => (Pending, a')
       end.

(** [t.catch(h)] *)
Definition or_catch {A} (t : Task A) (h : thrown → Task A) : Task A :=
  λ a, match t a with
       | (Threw error, a') => h error a'
       | other => other
       end.

(** A service that is called, noted in [calls], and answers. *)
Definition service {A} (c : Call) (answer : outcome A) : Task A :=
  λ a, (answer, log_call c a).

Definition template_set (f : Template → Template) : Task value :=
  λ a, (Returned VUndefined, set_template f a).

(** [IOWA.Elements.Toast.showMessage(text, ...)]; the text is noted. *)
Definition toast (text : string) : Task value :=
  λ a, (Returned VUndefined, set_world (log_toast text) a).

(** [array.indexOf(x)] and [array.findIndex(p)]: the first index, or -1. *)
Fixpoint findIndex {A} (p : A → bool) (l : list A) : Z :=
  match l with
  | [] => (-1)%Z
  | x :: l' =>
      if p x then 0%Z
      else let i := findIndex p l' in
           if decide (i = -1)%Z then (-1)%Z else (i + 1)%Z
  end.

Definition indexOf (x : string) (l : list string) : Z :=
  findIndex (λ y, bool_decide (y = x)) l.

Section Class.

Variable sv : Services.

(** [IOWA.Request.xhrPromise(method, url, auth, payload)] with the body of
    its answer, read by [body], and with what it is rejected with. *)
Definition request {A} (body : Request → A) (method url : string) (auth : bool)
    (payload : option value) : Task A :=
  λ a, let r := mkRequest method url auth payload in
       let '(xhr, w1) := xhrPromise (base sv) method url auth payload (world a) in
       match xhr w1 with
       | (Fulfilled _, w2) => (Returned (body r), set_world (λ _, w2) a)
       | (Rejected _, w2) => (Threw (xhr_failure sv r), set_world (λ _, w2) a)
       end.

(** *** [fetchSchedule] *)

Definition fetchSchedule : Task ScheduleData :=
  λ a, match scheduleData_ (this a) with
       | Some d => ret d a
       | None =>
           and_then
             (request (λ _, schedule_response sv) "GET"
                      (ToString (Schedule.static_get "SCHEDULE_ENDPOINT")) false None)
             (λ resp a', (Returned resp, set_this (with_scheduleData_ (Some resp)) a'))
             a
       end.

(** *** [createScheduleDeferred_], [schedulePromise], [resolveSchedulePromise] *)

(** [IOWA.Util.createDeferred()] and the handler attached to its promise:
    the new deferred is pending. *)
Definition createScheduleDeferred_ (a : App) : App :=
  let k := length (deferreds a) in
  set_this (with_scheduleDeferred k) (set_deferreds (λ ds, ds ++ [None]) a).

(** The handler of [createScheduleDeferred_], run when the deferred is
    resolved with [data]. *)
Definition schedule_loaded (data : Loaded) (a : App) : App :=
  set_template (with_app_schedule (loaded_scheduleData data) (loaded_tags data))
    (set_this (with_scheduleData_ (Some (loaded_scheduleData data))) a).

(** [schedulePromise()]: the promise, by the number of its deferred. *)
Definition schedulePromise (a : App) : option nat * App :=
  let a' := match scheduleDeferredPromise (this a) with
            | None => createScheduleDeferred_ a
            | Some _ => a
            end in
  (scheduleDeferredPromise (this a'), a').

(** The resolver of deferred [k]: a pending deferred is resolved and its
    handler runs; a resolved one stays as it is. *)
Definition resolve_deferred (k : nat) (data : Loaded) (a : App) : App :=
  match deferreds a !! k with
  | Some None => schedule_loaded data (set_deferreds (<[k := Some data]>) a)
  | _ => a
  end.

Definition resolveSchedulePromise (data : Loaded) (a : App) : App :=
  let a' := match scheduleDeferredPromiseResolver (this a) with
            | None => createScheduleDeferred_ a
            | Some _ => a
            end in
  match scheduleDeferredPromiseResolver (this a') with
  | Some k => resolve_deferred k data a'
  | None => a'
  end.

(** The settlement of the promise of deferred [k]: the schedule it was
    resolved with, if any. *)
Definition promise_value (a : App) (k : nat) : option ScheduleData :=
  match deferreds a !! k with
  | Some (Some data) => Some (loaded_scheduleData data)
  | _ => None
  end.

(** *** [getSessionById] *)

Fixpoint first_session (sessionId : string) (l : list Session) : option Session :=
  match l with
  | [] => None
  | session :: rest =>
      if decide (session_id session = sessionId) then Some session
      else first_session sessionId rest
  end.

(** [None] is [null]. *)
Definition getSessionById (sessionId : string) : Task (option Session) :=
  λ a, match scheduleData_ (this a) with
       | None => throw (JsError "TypeError" "Cannot read property 'sessions' of null") a
       | Some d => ret (first_session sessionId (sessions d)) a
       end.

(** *** [clearCachedUserSchedule], [clearUserSchedule] *)

Definition clearCachedUserSchedule : Task value :=
  λ a, (Returned VUndefined, set_this (with_cache_userSavedSessions []) a).

(** A call [Schedule.<name>(...)] of a static member read by
    [static_get]: none of the values it gives is a function, so the call
    throws.  [updateSavedSessionsUI] is no member of the class at all. *)
Definition call_static (name : string) : Task value :=
  match Schedule.static_get name with
  | VUndefined | VBool _ | VString _ | VArray _ =>
      throw (JsError "TypeError" ("Schedule." +:+ name +:+ " is not a function"))
  end.

Definition clearUserSchedule : Task value :=
  and_then (template_set (with_app_savedSessions [])) (λ _,
  and_then (call_static "updateSavedSessionsUI") (λ _,
  clearCachedUserSchedule)).

(** *** [saveSession] *)

Definition saveSession (sessionId : string) (save : bool) : Task value :=
  and_then (service (TrackEvent "session" "bookmark" (if save then "save" else "remove"))
                    (Returned tt)) (λ _,
  and_then (service (WaitForSignedIn "Sign in to add events to My Schedule")
                    (signIn sv "Sign in to add events to My Schedule")) (λ _,
  and_then (template_set (with_app_scheduleFetchingUserData true)) (λ _,
  or_catch
    (and_then (service (ToggleSession sessionId save)
                       (toggleSession_result sv sessionId save)) (λ _,
       clearCachedUserSchedule))
    (λ error,
       toast (thrown_string error +:+ " The change will be retried on your next visit."))))).

(** *** [submitSessionRequest], [saveSurvey] *)

Definition submitSessionRequest {A} (body : Request → A) (url method : string)
    (payload : option value) (errorMsg : string) (callback : A → Task value)
    : Task value :=
  or_catch
    (and_then (request body method url true payload) callback)
    (λ error,
       and_then
         (if serviceWorker (base sv) then
            if progress_event_defined sv then
              if is_progress_event error
              then toast (errorMsg +:+ " The change will be retried on your next visit.")
              else toast errorMsg
            else throw (JsError "ReferenceError" "XMLHttpRequestProgressEvent is not defined")
          else toast errorMsg)
         (λ _, throw error)).

Definition saveSurvey (sessionId : string) (answers : value) : Task value :=
  and_then (service (TrackEvent "session" "rate" sessionId) (Returned tt)) (λ _,
  and_then (service (WaitForSignedIn "Sign in to submit feedback")
                    (signIn sv "Sign in to submit feedback")) (λ _,
    let url := ToString (Schedule.static_get "SURVEY_ENDPOINT") +:+ "/" +:+ sessionId in
    let callback := λ response,
      and_then (template_set (with_app_savedSurveys response)) (λ _,
      service (MarkSessionRated sessionId) (Returned VUndefined)) in
    submitSessionRequest (survey_response sv) url "PUT" (Some answers)
      "Unable to save feedback results." callback)).

(** *** [bookmarkSessionNotification] *)

(** [opt_message || 'You\'ll get a notification when it starts.'];
    [opt_message] is [None] when the argument is left out. *)
Definition bookmark_message (opt_message : option string) : string :=
  match opt_message with
  | Some m => if decide (m = "") then "You'll get a notification when it starts." else m
  | None => "You'll get a notification when it starts."
  end.

Definition bookmarkSessionNotification (saved : bool) (opt_message : option string)
    : Task value :=
  let message := bookmark_message opt_message in
  if saved then
    λ a,
      or_catch
        (and_then (service (SubscribePromise (app_dontAutoSubscribe (template a)))
                           (subscribe_result sv (app_dontAutoSubscribe (template a)))) (λ _,
           toast ("Added to My Schedule. " +:+ message)))
        (λ error,
           and_then (template_set (with_app_dontAutoSubscribe true)) (λ _,
             if thrown_named "AbortError" error
             then toast "Added to My Schedule. Want to enable notifications?"
             else toast "Added to My Schedule."))
        a
  else toast "Removed from My Schedule".

(** *** The callbacks registered by [loadUserSchedule] *)

(** [console.log(text)] unless [window.ENV] is ['prod']. *)
Definition debug_log (text : string) : Task value :=
  if decide (window_ENV sv ≠ "prod")
  then service (ConsoleLog text) (Returned VUndefined)
  else ret VUndefined.

(** [template.set(`app.scheduleData.sessions.${index}.${flag}`, v)] *)
Definition set_session_flag (index : Z) (flag : string) (v : bool) : Task value :=
  service (TemplateSetFlag ("app.scheduleData.sessions." +:+ pretty index +:+ "." +:+ flag) v)
          (Returned VUndefined).

(** [template.app.scheduleData.sessions.findIndex(session => session.id === sessionId)] *)
Definition session_index (sessionId : string) : Task Z :=
  λ a, match app_scheduleData (template a) with
       | None => throw (JsError "TypeError" "Cannot read property 'sessions' of undefined") a
       | Some d => ret (findIndex (λ session, bool_decide (session_id session = sessionId))
                                  (sessions d)) a
       end.

(** The callback given to [registerToSessionUpdates]; [data] is [None]
    for no data, and else tells whether [data.bookmarked] holds. *)
Definition on_session_update (sessionId : string) (data : option bool) : Task value :=
  and_then (template_set (with_app_scheduleFetchingUserData false)) (λ _ a,
    let savedSessions := app_savedSessions (template a) in
    let savedSessionsListIndex := indexOf sessionId savedSessions in
    and_then (session_index sessionId) (λ sessionsListIndex,
      if bool_decide (data = Some true) && bool_decide (indexOf sessionId savedSessions = -1)%Z
      then
        and_then (template_set (with_app_savedSessions (savedSessions ++ [sessionId]))) (λ _,
        and_then (set_session_flag sessionsListIndex "saved" true) (λ _,
        debug_log ("Session " +:+ sessionId +:+ " bookmarked!")))
      else if bool_decide (data = Some false) && bool_decide (savedSessionsListIndex ≠ -1)%Z
      then
        and_then (template_set (with_app_savedSessions
                    (delete (Z.to_nat savedSessionsListIndex) savedSessions))) (λ _,
        and_then (set_session_flag sessionsListIndex "saved" false) (λ _,
        debug_log ("Session " +:+ sessionId +:+ " removed from bookmarks!")))
      else ret VUndefined) a).

(** The callback given to [registerToFeedbackUpdates]. *)
Definition on_feedback_update (sessionId : string) : Task value :=
  λ a,
    let savedFeedback := app_savedSurveys (template a) in
    and_then (session_index sessionId) (λ sessionsListIndex,
      if bool_decide (indexOf sessionId savedFeedback = -1)%Z
      then
        and_then (template_set (with_app_savedSurveys (savedFeedback ++ [sessionId]))) (λ _,
        and_then (set_session_flag sessionsListIndex "rated" true) (λ _,
        debug_log ("Session " +:+ sessionId +:+ " has received feedback!")))
      else ret VUndefined) a.

End Class.

(** Services for the examples: the store and the requests of [e], a
    failed request rejected with a network event, and the given answers
    of sign-in, Firebase and the push subscription. *)
Definition sample_schedule : ScheduleData :=
  mkScheduleData
    [ mkSession "s1" [("title", VString "Keynote")];
      mkSession "s2" [("title", VString "Codelab")];
      mkSession "s1" [("title", VString "Keynote, again")] ]
    [].

Definition services_with (e : Env) (progress_event : bool)
    (sign toggle subscribe : outcome unit) : Services :=
  mkServices e (λ _, NetworkEvent) sample_schedule (λ _, ["s2"]) progress_event
             (λ _, sign) (λ _ _, toggle) (λ _, subscribe) "dev".

(** The page at its start: a new instance, an empty template, nothing
    stored and no call made. *)
Definition new_app : App :=
  mkApp new_Schedule [] (mkTemplate None [] [] [] false [] [] false) []
        (mkWorld ∅ [] [] []).

(** Calls of [schedulePromise] and [resolveSchedulePromise], in a row. *)
Inductive DeferredCall : Type :=
  | CallSchedulePromise
  | CallResolveSchedulePromise (data : Loaded).

Definition run_deferred_call (a : App) (c : DeferredCall) : App :=
  match c with
  | CallSchedulePromise => (schedulePromise a).2
  | CallResolveSchedulePromise data => resolveSchedulePromise data a
  end.

(** The data of the first [resolveSchedulePromise] among the calls. *)
Fixpoint first_resolution (cs : list DeferredCall) : option Loaded :=
  match cs with
  | [] => None
  | CallSchedulePromise :: cs' => first_resolution cs'
  | CallResolveSchedulePromise data :: _ => Some data
  end.

(** The deferred of the instance, if there is one, is still pending. *)
Definition schedule_pending (a : App) : Prop :=
  ∀ k, scheduleDeferredPromiseResolver (this a) = Some k →
       deferreds a !! k = Some None.

(** The state of the deferred after calls whose first resolution, if
    any, was with [r]. *)
Definition deferred_state (a : App) (r : option Loaded) : Prop :=
  scheduleDeferredPromise (this a) = scheduleDeferredPromiseResolver (this a) ∧
  match r with
  | None =>
      scheduleData_ (this a) = None ∧ app_scheduleData (template a) = None ∧
      ((scheduleDeferredPromiseResolver (this a) = None ∧ deferreds a = []) ∨
       (scheduleDeferredPromiseResolver (this a) = Some 0 ∧ deferreds a = [None]))
  | Some data =>
      scheduleData_ (this a) = Some (loaded_scheduleData data) ∧
      app_scheduleData (template a) = Some (loaded_scheduleData data) ∧
      scheduleDeferredPromiseResolver (this a) = Some 0 ∧
      deferreds a = [Some data]
  end.


(** A browser with service workers whose store opens; it is read as
    [reads] says, the requests for the URLs [failing] fail, and the keys
    [undeletable] cannot be deleted. *)
Definition faulty_browser (reads : bool) (failing undeletable : list string) : Env :=
  mkEnv true (λ _, true) (λ _, reads)
        map_to_list (λ m, reflexivity (map_to_list m))
        (λ r, bool_decide (req_url r ∉ failing))
        (λ _ key, bool_decide (key ∉ undeletable)) (λ _, true).

(** Another engine: the keys in the reverse order. *)
Definition reverse_engine : Engine :=
  mkEngine (λ A o, reverse (map_to_list o).*1)
           (λ A o, reverse_Permutation _)
           (λ A cmp, merge_sort (cmp_le cmp))
           (λ A cmp l, merge_sort_Permutation _ l)
           merge_sort_of_consistent.

(** The page with the sample schedule loaded on the instance and in the
    template, and with session [s2] saved and rated. *)
Definition loaded_app : App :=
  mkApp (mkInstance (Some sample_schedule) [VString "s2"] [] None None) []
        (mkTemplate (Some sample_schedule) [] [] [] true ["s2"] ["s2"] false) []
        (mkWorld ∅ [] [] []).

(** Services for the examples: all well; the network down; the network
    down in a browser without [XMLHttpRequestProgressEvent]; no sign-in. *)
Definition online : Services :=
  services_with (browser true true []) true (Returned tt) (Returned tt) (Returned tt).

Definition offline : Services :=
  services_with (browser true true ["api/v1/schedule"; "api/v1/user/survey/42"]) true
    (Returned tt) (Threw (Value (VString "Offline.")))
    (Threw (JsError "AbortError" "denied")).

Definition offline_without_progress_event : Services :=
  services_with (browser true true ["api/v1/schedule"; "api/v1/user/survey/42"]) false
    (Returned tt) (Threw (Value (VString "Offline.")))
    (Threw (JsError "AbortError" "denied")).

Definition signed_out : Services :=
  services_with (browser true true []) true
    (Threw (JsError "Error" "sign-in cancelled")) (Returned tt) (Returned tt).

(** ** What one replay does to the world *)

Section Replay.

Variable env : Env.

Lemma visit_all_replay db l acc w :
  visit_all (Schedule.replay_callback env db) l acc w =
  (acc ++ map (pushed env db) l,
   mkWorld (stores w) (opened w) (requests w ++ (request_of <$> l)) (toasts w)).
Proof.
  revert acc w. induction l as [|[url method] l IH]; intros acc w; simpl.
  - rewrite !app_nil_r. by destruct w.
  - rewrite IH. simpl. by rewrite <- !app_assoc.
Qed.

Lemma pushed_settles db e w :
  pushed env db e w =
  (if xhr_ok env (request_of e)
   then if delete_ok env db e.1
        then Fulfilled (VBool true)
        else Rejected (StoreDeleteFailed db e.1)
   else Rejected (ReplayRequestFailed e.2 e.1),
   set_stores (λ st, drain_step env db st e) w).
Proof.
  unfold pushed, then_, xhr_answer, db_delete, drain_step, replayed, request_of.
  destruct e as [url method]; simpl.
  destruct (xhr_ok env _); simpl; [|by destruct w].
  destruct (delete_ok env db url); simpl; [done|by destruct w].
Qed.

Lemma settle_all_pushed_world db l w :
  (settle_all (map (pushed env db) l) w).2 = set_stores (drain env db l) w.
Proof.
  revert w. induction l as [|e l IH]; intros w; simpl.
  - by destruct w.
  - rewrite pushed_settles.
    specialize (IH (set_stores (λ st, drain_step env db st e) w)).
    destruct (settle_all _ _) as [rs w2]; simpl in *. subst w2.
    by destruct w.
Qed.

Lemma settle_all_pushed_fulfilled db l w :
  is_fulfilled (settle_all (map (pushed env db) l) w).1 = forallb (replayed env db) l.
Proof.
  revert w. induction l as [|e l IH]; intros w; simpl; [done|].
  rewrite pushed_settles.
  specialize (IH (set_stores (λ st, drain_step env db st e) w)).
  destruct (settle_all _ _) as [rs w2]; simpl in *.
  unfold replayed at 1.
  destruct (xhr_ok env _); simpl; [|done].
  destruct (delete_ok env db _); simpl; [|done].
  rewrite <- IH. by destruct rs.
Qed.

(** Entries of other databases are out of reach of a replay. *)
Lemma drain_other db db' l st :
  db ≠ db' → drain env db l st !! db' = st !! db'.
Proof.
  intros Hne. unfold drain. revert st.
  induction l as [|e l IH]; intros st; simpl; [done|].
  rewrite IH. unfold drain_step.
  destruct (replayed env db e); [|done]. by rewrite lookup_alter_ne.
Qed.

(** An entry is gone from the drained store exactly when a replay of its
    key went through. *)
Lemma drain_lookup db l st u :
  default ∅ (drain env db l st !! db) !! u =
  if existsb (λ e, bool_decide (e.1 = u) && replayed env db e) l
  then None
  else default ∅ (st !! db) !! u.
Proof.
  unfold drain. revert st. induction l as [|e l IH]; intros st; simpl; [done|].
  rewrite IH. unfold drain_step.
  destruct (existsb _ l) eqn:Hl; [by rewrite orb_true_r|]. rewrite orb_false_r.
  destruct (replayed env db e); [|by rewrite andb_false_r]. rewrite andb_true_r.
  rewrite lookup_alter_eq.
  destruct (st !! db) as [c|]; simpl.
  - case_bool_decide as Hu.
    + subst u. apply lookup_delete_eq.
    + by apply lookup_delete_ne.
  - rewrite lookup_empty. by case_bool_decide.
Qed.

(** Two deletions of a replay commute. *)
Lemma drain_step_comm db st e1 e2 :
  drain_step env db (drain_step env db st e1) e2 =
  drain_step env db (drain_step env db st e2) e1.
Proof.
  unfold drain_step.
  destruct (replayed env db e1), (replayed env db e2); try done.
  rewrite !alter_alter_eq. apply alter_ext. intros c _. simpl.
  apply delete_delete.
Qed.

Lemma drain_permutation db l1 l2 st :
  l1 ≡ₚ l2 → drain env db l1 st = drain env db l2 st.
Proof.
  intros Hp. unfold drain. revert st.
  induction Hp as [|e l1 l2 _ IH|e1 e2 l|l1 l2 l3 _ IH1 _ IH2]; intros st; simpl.
  - done.
  - apply IH.
  - by rewrite drain_step_comm.
  - by rewrite IH1.
Qed.

(** The pushed promises may settle in any order: the world they leave and
    whether all of them are fulfilled do not depend on it. *)
Lemma settle_order_irrelevant db l1 l2 w :
  l1 ≡ₚ l2 →
  (settle_all (map (pushed env db) l1) w).2 = (settle_all (map (pushed env db) l2) w).2 ∧
  is_fulfilled (settle_all (map (pushed env db) l1) w).1 =
  is_fulfilled (settle_all (map (pushed env db) l2) w).1.
Proof.
  intros Hp. rewrite !settle_all_pushed_world, !settle_all_pushed_fulfilled.
  unfold set_stores. rewrite (drain_permutation db l1 l2) by done.
  split; [done|].
  apply eq_true_iff_eq. rewrite !forallb_forall.
  split; intros H e He; apply H; revert He; rewrite <- !list_elem_of_In.
  - by rewrite Hp.
  - by rewrite <- Hp.
Qed.

Lemma queue_name :
  ToString (Schedule.static_get "QUEUED_SESSION_API_UPDATES_DB_NAME") = QUEUE.
Proof. reflexivity. Qed.

(** The run of [replayQueuedRequests] once the store is open and read. *)
Lemma replay_run w :
  serviceWorker env = true →
  open_ok env QUEUE = true →
  forEach_ok env QUEUE = true →
  Schedule.replayQueuedRequests env w =
  (Fulfilled (VArray [VUndefined]),
   let l := cursor env (queue w) in
   mkWorld (drain env QUEUE l (stores w)) (opened w ++ [QUEUE])
           (requests w ++ (request_of <$> l)) (toasts w ++ replay_toasts env l)).
Proof.
  intros Hsw Hopen Hread.
  unfold Schedule.replayQueuedRequests. rewrite Hsw.
  unfold Promise_all at 1. unfold then_ at 1. simpl settle_all.
  unfold catch_, then_ at 1, simpleDB_open.
  rewrite queue_name, Hopen.
  unfold then_ at 1, db_forEach. rewrite Hread.
  rewrite visit_all_replay, app_nil_l.
  change (db_contents (log_open QUEUE w) QUEUE) with (queue w).
  cbn [stores opened requests toasts log_open].
  destruct (cursor env (queue w)) as [|e l] eqn:Hl.
  - simpl. by rewrite !app_nil_r.
  - set (es := e :: l). set (w1 := mkWorld _ _ _ _).
    destruct (decide (length (map (pushed env QUEUE) es) ≠ 0)) as [_|Hlen];
      [|by destruct Hlen].
    unfold then_ at 1, Promise_all, then_ at 1.
    pose proof (settle_all_pushed_world QUEUE es w1) as Hw.
    pose proof (settle_all_pushed_fulfilled QUEUE es w1) as Hf.
    destruct (settle_all (map (pushed env QUEUE) es) w1) as [[vs|r] w2];
      cbn [fst snd is_fulfilled] in Hw, Hf; subst w2;
      change (replay_toasts env es) with
        (if forallb (replayed env QUEUE) es
         then [MSG_REPLAYED] else [MSG_REPLAY_FAILED]);
      rewrite <- Hf; reflexivity.
Qed.

(** Without service worker support nothing happens. *)
Lemma replay_no_capability w :
  serviceWorker env = false →
  Schedule.replayQueuedRequests env w = (Fulfilled VUndefined, w).
Proof.
  intros Hsw. unfold Schedule.replayQueuedRequests. by rewrite Hsw.
Qed.

(** The run when the store cannot be opened. *)
Lemma replay_open_failed w :
  serviceWorker env = true →
  open_ok env QUEUE = false →
  Schedule.replayQueuedRequests env w =
  (Fulfilled (VArray [VUndefined]),
   mkWorld (stores w) (opened w ++ [QUEUE]) (requests w)
           (toasts w ++ [MSG_REPLAY_FAILED])).
Proof.
  intros Hsw Hopen.
  unfold Schedule.replayQueuedRequests. rewrite Hsw.
  unfold Promise_all, then_ at 1. simpl settle_all.
  unfold catch_, then_ at 1, simpleDB_open.
  by rewrite queue_name, Hopen.
Qed.

(** The run when the store opens and cannot be read. *)
Lemma replay_read_failed w :
  serviceWorker env = true →
  open_ok env QUEUE = true →
  forEach_ok env QUEUE = false →
  Schedule.replayQueuedRequests env w =
  (Fulfilled (VArray [VUndefined]),
   mkWorld (stores w) (opened w ++ [QUEUE]) (requests w)
           (toasts w ++ [MSG_REPLAY_FAILED])).
Proof.
  intros Hsw Hopen Hread.
  unfold Schedule.replayQueuedRequests. rewrite Hsw.
  unfold Promise_all, then_ at 1. simpl settle_all.
  unfold catch_, then_ at 1, simpleDB_open.
  rewrite queue_name, Hopen.
  unfold then_ at 1, db_forEach. by rewrite Hread.
Qed.

(** *** The visiting order and the queue *)

Lemma cursor_elem (q : gmap string string) url method :
  (url, method) ∈ cursor env q ↔ q !! url = Some method.
Proof. rewrite (cursor_perm env q). apply elem_of_map_to_list. Qed.

Lemma cursor_nil (q : gmap string string) : cursor env q = [] ↔ q = ∅.
Proof.
  rewrite <- map_to_list_empty_iff.
  pose proof (cursor_perm env q) as Hp. split; intros H; rewrite H in Hp.
  - by apply Permutation_nil_l in Hp.
  - by apply Permutation_nil_r in Hp.
Qed.

Lemma cursor_NoDup (q : gmap string string) : NoDup (cursor env q).
Proof. rewrite (cursor_perm env q). apply NoDup_map_to_list. Qed.

Lemma cursor_replayed_key (q : gmap string string) db url :
  existsb (λ e, bool_decide (e.1 = url) && replayed env db e) (cursor env q) =
  match q !! url with
  | Some method => replayed env db (url, method)
  | None => false
  end.
Proof.
  apply eq_true_iff_eq. rewrite existsb_exists. split.
  - intros ([u m] & Hin & Hok). apply andb_true_iff in Hok as [Hu Hok].
    apply bool_decide_eq_true in Hu. simpl in Hu. subst u.
    apply list_elem_of_In, cursor_elem in Hin. by rewrite Hin.
  - destruct (q !! url) as [method|] eqn:Hq; [|done]. intros Hok.
    exists (url, method). split.
    + by apply list_elem_of_In, cursor_elem.
    + apply andb_true_iff. split; [by apply bool_decide_eq_true|done].
Qed.

Lemma forallb_cursor_replayed (q : gmap string string) db :
  forallb (replayed env db) (cursor env q) = true ↔
  ∀ url method, q !! url = Some method → replayed env db (url, method) = true.
Proof.
  rewrite forallb_forall. split.
  - intros H url method Hq. by apply H, list_elem_of_In, cursor_elem.
  - intros H [url method] Hin. by apply H, cursor_elem, list_elem_of_In.
Qed.

(** The queue left by a replay: the entries whose replay did not go
    through. *)
Lemma replay_queue_lookup w url :
  serviceWorker env = true →
  open_ok env QUEUE = true →
  forEach_ok env QUEUE = true →
  queue (Schedule.replayQueuedRequests env w).2 !! url =
  match queue w !! url with
  | Some method => if replayed env QUEUE (url, method) then None else Some method
  | None => None
  end.
Proof.
  intros Hsw Hopen Hread. rewrite replay_run by done.
  unfold queue at 1, db_contents. cbn [snd stores].
  rewrite drain_lookup, cursor_replayed_key.
  fold (db_contents w QUEUE). fold (queue w).
  by destruct (queue w !! url).
Qed.

End Replay.

(** ** Properties of [replayQueuedRequests] *)

Section ReplayProperties.

Variable env : Env.
Variable w : World.

Let w' : World := (Schedule.replayQueuedRequests env w).2.

(** C1. A non-empty queue whose entries are all replayed with success is
    left empty by one call of [replayQueuedRequests], and the call shows
    exactly one notification, 'My Schedule was updated with offline
    changes.'  (The service worker capability is present, the store opens
    and is read, and the deletions the replay asks for are carried out.) *)
Theorem replay_drains_queue_on_success :
  serviceWorker env = true →
  open_ok env QUEUE = true →
  forEach_ok env QUEUE = true →
  queue w ≠ ∅ →
  (∀ url method, queue w !! url = Some method →
     xhr_ok env (mkRequest method url true None) = true) →
  (∀ url method, queue w !! url = Some method →
     delete_ok env QUEUE url = true) →
  queue w' = ∅ ∧
  toasts w' = toasts w ++ ["My Schedule was updated with offline changes."].
Proof.
  intros Hsw Hopen Hread Hne Hxhr Hdel.
  assert (∀ url method, queue w !! url = Some method →
            replayed env QUEUE (url, method) = true) as Hall.
  { intros url method Hq. unfold replayed, request_of. simpl.
    by rewrite (Hxhr url method Hq), (Hdel url method Hq). }
  split.
  - apply map_eq. intros url. subst w'.
    rewrite replay_queue_lookup, lookup_empty by done.
    destruct (queue w !! url) as [method|] eqn:Hq; [|done].
    by rewrite (Hall url method Hq).
  - subst w'. rewrite replay_run by done. cbn [snd toasts]. f_equal.
    unfold replay_toasts.
    destruct (cursor env (queue w)) as [|e l] eqn:Hl.
    + by apply cursor_nil in Hl.
    + rewrite <- Hl.
      by rewrite (proj2 (forallb_cursor_replayed env (queue w) QUEUE) Hall).
Qed.

(** C2. After one call of [replayQueuedRequests], an entry of the queue is
    gone exactly when the request replayed for it was answered with
    success, and an entry whose request failed is still there with its
    method; this depends on no other entry. *)
Theorem replay_removes_entry_iff_request_succeeded url method :
  serviceWorker env = true →
  open_ok env QUEUE = true →
  forEach_ok env QUEUE = true →
  delete_ok env QUEUE url = true →
  queue w !! url = Some method →
  (queue w' !! url = None ↔ xhr_ok env (mkRequest method url true None) = true) ∧
  (xhr_ok env (mkRequest method url true None) = false →
     queue w' !! url = Some method).
Proof.
  intros Hsw Hopen Hread Hdel Hq. subst w'.
  rewrite replay_queue_lookup, Hq by done.
  unfold replayed, request_of. cbn [fst snd]. rewrite Hdel, andb_true_r.
  by destruct (xhr_ok env _).
Qed.

(** A replay neither adds an entry to the queue nor changes a method. *)
Lemma replay_queue_subseteq :
  serviceWorker env = true →
  open_ok env QUEUE = true →
  forEach_ok env QUEUE = true →
  queue w' ⊆ queue w.
Proof.
  intros Hsw Hopen Hread. apply map_subseteq_spec. intros url method.
  subst w'. rewrite replay_queue_lookup by done.
  destruct (queue w !! url) as [m|]; [|done].
  by destruct (replayed env QUEUE (url, m)).
Qed.

(** X6. A replay leaves the databases other than the queue alone. *)
Lemma replay_other_stores db :
  db ≠ QUEUE → stores w' !! db = stores w !! db.
Proof.
  intros Hne. subst w'.
  destruct (serviceWorker env) eqn:Hsw; [|by rewrite replay_no_capability].
  destruct (open_ok env QUEUE) eqn:Hopen; [|by rewrite replay_open_failed].
  destruct (forEach_ok env QUEUE) eqn:Hread; [|by rewrite replay_read_failed].
  rewrite replay_run by done. cbn [snd stores]. by apply drain_other.
Qed.

(** C3, as the code has it. With a non-empty queue, the one notification
    of a call is the success summary when the replay of every entry went
    through (request answered with success, entry deleted), and is the
    failure message when the replay of some entry did not: a partial
    failure is not reported as a success. *)
Theorem replay_notification_of_nonempty_queue :
  serviceWorker env = true →
  open_ok env QUEUE = true →
  forEach_ok env QUEUE = true →
  queue w ≠ ∅ →
  ((∀ url method, queue w !! url = Some method →
      replayed env QUEUE (url, method) = true) →
   toasts w' = toasts w ++ ["My Schedule was updated with offline changes."]) ∧
  ((∃ url method, queue w !! url = Some method ∧
      replayed env QUEUE (url, method) = false) →
   toasts w' = toasts w ++ ["Offline changes could not be applied to My Schedule."]).
Proof.
  intros Hsw Hopen Hread Hne. subst w'.
  rewrite replay_run by done. cbn [snd toasts].
  unfold replay_toasts.
  destruct (cursor env (queue w)) as [|e l] eqn:Hl;
    [by apply cursor_nil in Hl|]. rewrite <- Hl. clear Hl.
  split.
  - intros Hall.
    by rewrite (proj2 (forallb_cursor_replayed env (queue w) QUEUE) Hall).
  - intros (url & method & Hq & Hfail).
    destruct (forallb _ _) eqn:Hall; [|done].
    rewrite (proj1 (forallb_cursor_replayed env (queue w) QUEUE) Hall _ _ Hq)
      in Hfail.
    discriminate.
Qed.

(** C5. When the store cannot be opened, a call of [replayQueuedRequests]
    sends no request, leaves every store as it was, and shows exactly one
    notification, 'Offline changes could not be applied to My Schedule.' *)
Theorem replay_store_open_failure :
  serviceWorker env = true →
  open_ok env QUEUE = false →
  requests w' = requests w ∧
  stores w' = stores w ∧
  toasts w' = toasts w ++ ["Offline changes could not be applied to My Schedule."].
Proof.
  intros Hsw Hopen. subst w'. by rewrite replay_open_failed.
Qed.

(** C6. Without service worker support, [replayQueuedRequests] resolves at
    once and does nothing: no store is opened, no request is sent, no
    notification is shown. *)
Theorem replay_capability_gate :
  serviceWorker env = false →
  Schedule.replayQueuedRequests env w = (Fulfilled VUndefined, w) ∧
  opened w' = opened w ∧
  requests w' = requests w ∧
  toasts w' = toasts w ∧
  stores w' = stores w.
Proof.
  intros Hsw. subst w'. by rewrite replay_no_capability.
Qed.

(** C7. With an empty queue in a store that opens and is read, a call of
    [replayQueuedRequests] sends no request, shows no notification and
    leaves the queue as it was. *)
Theorem replay_empty_queue :
  open_ok env QUEUE = true →
  forEach_ok env QUEUE = true →
  queue w = ∅ →
  requests w' = requests w ∧
  toasts w' = toasts w ∧
  stores w' = stores w ∧
  queue w' = ∅.
Proof.
  intros Hopen Hread Hq. subst w'.
  destruct (serviceWorker env) eqn:Hsw.
  - rewrite replay_run by done. cbn [snd stores requests toasts].
    rewrite (proj2 (cursor_nil env (queue w)) Hq). simpl.
    by rewrite !app_nil_r.
  - by rewrite replay_no_capability.
Qed.

(** C8. Whatever the queue holds and however the store and the requests
    answer, a call of [replayQueuedRequests] shows at most one
    notification: none, the success summary, or the failure message. *)
Theorem replay_at_most_one_notification :
  ∃ shown,
    toasts w' = toasts w ++ shown ∧
    (length shown ≤ 1)%nat ∧
    (shown = [] ∨
     shown = ["My Schedule was updated with offline changes."] ∨
     shown = ["Offline changes could not be applied to My Schedule."]).
Proof.
  subst w'.
  destruct (serviceWorker env) eqn:Hsw;
    [|exists []; rewrite replay_no_capability, app_nil_r by done; simpl; auto].
  destruct (open_ok env QUEUE) eqn:Hopen;
    [|eexists; rewrite replay_open_failed by done; simpl; auto].
  destruct (forEach_ok env QUEUE) eqn:Hread;
    [|eexists; rewrite replay_read_failed by done; simpl; auto].
  exists (replay_toasts env (cursor env (queue w))).
  rewrite replay_run by done. split; [done|].
  unfold replay_toasts.
  destruct (cursor env (queue w)); [simpl; auto|].
  destruct (forallb _ _); simpl; auto.
Qed.

(** Each visit of an entry sends one request: the stored method to the
    stored URL, authenticated, without payload. *)
Lemma replay_callback_sends db url method ps :
  requests (Schedule.replay_callback env db url method ps w).2 =
  requests w ++ [mkRequest method url true None].
Proof. reflexivity. Qed.

(** C9. For the entries visited in the queue, the requests sent by a call
    of [replayQueuedRequests] are one per entry and no other: the entry's
    method to the entry's URL, with the authenticated flag set and no
    payload. *)
Theorem replay_sends_one_request_per_entry :
  serviceWorker env = true →
  open_ok env QUEUE = true →
  forEach_ok env QUEUE = true →
  ∃ sent,
    requests w' = requests w ++ sent ∧
    NoDup sent ∧
    length sent = size (queue w) ∧
    ∀ r, r ∈ sent ↔
         ∃ url method, queue w !! url = Some method ∧
                       r = mkRequest method url true None.
Proof.
  intros Hsw Hopen Hread. subst w'.
  exists (request_of <$> cursor env (queue w)).
  rewrite replay_run by done. split; [done|]. split; [|split].
  - apply NoDup_fmap_2; [|apply cursor_NoDup].
    intros [u1 m1] [u2 m2] Heq. unfold request_of in Heq. simpl in Heq.
    congruence.
  - rewrite length_fmap, (cursor_perm env (queue w)).
    apply length_map_to_list.
  - intros r. rewrite list_elem_of_fmap. split.
    + intros ([url method] & -> & Hin). exists url, method.
      split; [by apply cursor_elem in Hin|done].
    + intros (url & method & Hq & ->). exists (url, method).
      split; [done|by apply cursor_elem].
Qed.

End ReplayProperties.

(** *** The returned promise *)

Lemma catch_showMessage_fulfils (p : Promise value) text w :
  ∃ v, (catch_ p (λ _, showMessage text) w).1 = Fulfilled v.
Proof.
  unfold catch_. destruct (p w) as [[v|r] w1]; simpl; eauto.
Qed.

Lemma Promise_all_one_fulfils (p : Promise value) w :
  (∃ v, (p w).1 = Fulfilled v) →
  ∃ v, (Promise_all [p] w).1 = Fulfilled (VArray [v]).
Proof.
  intros [v Hv]. exists v. unfold Promise_all, then_. simpl.
  destruct (p w) as [r w1]. simpl in Hv. by subst r.
Qed.

(** C10. The promise returned by [replayQueuedRequests] is fulfilled in
    every case, never rejected: every rejection on the way is taken by the
    [catch] handler before [Promise.all] sees it. *)
Theorem replay_always_resolves env w :
  ∃ v, (Schedule.replayQueuedRequests env w).1 = Fulfilled v.
Proof.
  unfold Schedule.replayQueuedRequests.
  destruct (serviceWorker env).
  - edestruct Promise_all_one_fulfils as [v Hv];
      [apply catch_showMessage_fulfils|]. eauto.
  - by exists VUndefined.
Qed.

(** ** [clearQueuedRequests] *)

(** The name read by [clearQueuedRequests] is not a member of the class. *)
Lemma cleared_name :
  Schedule.static_get "QUEUED_SESSION_UPDATES_DB_NAME" = VUndefined ∧
  ToString (Schedule.static_get "QUEUED_SESSION_UPDATES_DB_NAME") ≠ QUEUE.
Proof. split; [reflexivity|discriminate]. Qed.

(** What [clearQueuedRequests] deletes is the database of that name. *)
Lemma clearQueuedRequests_run env w :
  Schedule.clearQueuedRequests env w =
  if deleteDatabase_ok env "undefined"
  then (Fulfilled VUndefined, set_stores (delete "undefined") w)
  else (Rejected (DatabaseDeleteFailed "undefined"), w).
Proof. reflexivity. Qed.

(** The queue of session API updates is as it was after the teardown. *)
Lemma clearQueuedRequests_spares_queue env w :
  queue (Schedule.clearQueuedRequests env w).2 = queue w.
Proof.
  rewrite clearQueuedRequests_run.
  destruct (deleteDatabase_ok env "undefined"); [|done].
  unfold queue, db_contents. simpl. by rewrite lookup_delete_ne.
Qed.

(** C4, on the code. With the survey update for session 42 queued, the
    teardown is fulfilled and the queue still holds the update, also
    after the store is opened again. *)
Theorem clearQueuedRequests_leaves_queue :
  let cleared := Schedule.clearQueuedRequests (browser true true [])
                   (world_with one_survey) in
  let reopened := simpleDB_open (browser true true [])
                    (VString "toolbox-offline-session-updates") cleared.2 in
  cleared.1 = Fulfilled VUndefined ∧
  reopened.1 = Fulfilled "toolbox-offline-session-updates" ∧
  db_contents reopened.2 "toolbox-offline-session-updates" =
    {[ "api/v1/user/survey/42" := "PUT" ]} ∧
  db_contents reopened.2 "toolbox-offline-session-updates" ≠ ∅.
Proof.
  split; [reflexivity|]. split; [reflexivity|].
  split; [by vm_compute|]. by vm_compute.
Qed.

(** ** The properties at concrete queues *)

(** The scenario of the survey for session 42: the request succeeds, the
    queue becomes empty and the success summary is shown once. *)
Lemma replay_drains_queue_on_success_witness :
  queue (world_with one_survey) ≠ ∅ ∧
  queue (Schedule.replayQueuedRequests (browser true true [])
           (world_with one_survey)).2 = ∅ ∧
  toasts (Schedule.replayQueuedRequests (browser true true [])
            (world_with one_survey)).2 =
    ["My Schedule was updated with offline changes."].
Proof.
  split; [by vm_compute|].
  apply (replay_drains_queue_on_success (browser true true [])
           (world_with one_survey)).
  - reflexivity.
  - reflexivity.
  - reflexivity.
  - by vm_compute.
  - intros url method _. reflexivity.
  - intros url method _. reflexivity.
Defined.

(** Queue [{A→GET, B→PUT}], the request for [B] fails: [B] stays. *)
Lemma replay_removes_entry_iff_request_succeeded_witness :
  queue (world_with two_entries) !! "B" = Some "PUT" ∧
  xhr_ok (browser true true ["B"]) (mkRequest "PUT" "B" true None) = false ∧
  queue (Schedule.replayQueuedRequests (browser true true ["B"])
           (world_with two_entries)).2 !! "B" = Some "PUT".
Proof.
  split; [reflexivity|]. split; [reflexivity|].
  apply (replay_removes_entry_iff_request_succeeded (browser true true ["B"])
           (world_with two_entries) "B" "PUT");
    reflexivity.
Defined.

(** Queue [{A→GET, B→PUT}], [A] succeeds and [B] fails: the queue ends as
    [{B→PUT}]. *)
Example replay_partial_failure_retained :
  queue (Schedule.replayQueuedRequests (browser true true ["B"])
           (world_with two_entries)).2 = {[ "B" := "PUT" ]}.
Proof. by vm_compute. Qed.

(** C3, as stated, fails: queue [{A→GET, B→PUT}] is not empty, the
    request for [B] fails, and the call shows the failure message and no
    success summary. *)
Lemma replay_partial_failure_shows_failure :
  serviceWorker (browser true true ["B"]) = true ∧
  open_ok (browser true true ["B"]) QUEUE = true ∧
  forEach_ok (browser true true ["B"]) QUEUE = true ∧
  queue (world_with two_entries) ≠ ∅ ∧
  toasts (Schedule.replayQueuedRequests (browser true true ["B"])
            (world_with two_entries)).2 =
    ["Offline changes could not be applied to My Schedule."] ∧
  "My Schedule was updated with offline changes." ∉
    toasts (Schedule.replayQueuedRequests (browser true true ["B"])
              (world_with two_entries)).2.
Proof.
  split; [reflexivity|]. split; [reflexivity|]. split; [reflexivity|].
  split; [by vm_compute|]. split; [reflexivity|].
  intros Hin. vm_compute in Hin.
  apply list_elem_of_In in Hin. simpl in Hin.
  destruct Hin as [Heq|[]]. discriminate Heq.
Qed.

Lemma replay_notification_of_nonempty_queue_witness :
  queue (world_with two_entries) ≠ ∅ ∧
  replayed (browser true true ["B"]) QUEUE ("B", "PUT") = false ∧
  toasts (Schedule.replayQueuedRequests (browser true true ["B"])
            (world_with two_entries)).2 =
    ["Offline changes could not be applied to My Schedule."] ∧
  toasts (Schedule.replayQueuedRequests (browser true true [])
            (world_with two_entries)).2 =
    ["My Schedule was updated with offline changes."].
Proof.
  split; [by vm_compute|]. split; [reflexivity|]. split.
  - apply (replay_notification_of_nonempty_queue (browser true true ["B"])
             (world_with two_entries)).
    + reflexivity.
    + reflexivity.
    + reflexivity.
    + by vm_compute.
    + exists "B", "PUT". split; reflexivity.
  - apply (replay_notification_of_nonempty_queue (browser true true [])
             (world_with two_entries)).
    + reflexivity.
    + reflexivity.
    + reflexivity.
    + by vm_compute.
    + intros url method _. reflexivity.
Defined.

Lemma replay_store_open_failure_witness :
  open_ok (browser true false []) QUEUE = false ∧
  requests (Schedule.replayQueuedRequests (browser true false [])
              (world_with two_entries)).2 = [] ∧
  stores (Schedule.replayQueuedRequests (browser true false [])
            (world_with two_entries)).2 = stores (world_with two_entries) ∧
  toasts (Schedule.replayQueuedRequests (browser true false [])
            (world_with two_entries)).2 =
    ["Offline changes could not be applied to My Schedule."].
Proof.
  split; [reflexivity|].
  apply (replay_store_open_failure (browser true false [])
           (world_with two_entries)); reflexivity.
Defined.

Lemma replay_capability_gate_witness :
  serviceWorker (browser false true []) = false ∧
  Schedule.replayQueuedRequests (browser false true []) (world_with two_entries) =
    (Fulfilled VUndefined, world_with two_entries).
Proof.
  split; [reflexivity|].
  apply (replay_capability_gate (browser false true [])
           (world_with two_entries)); reflexivity.
Defined.

Lemma replay_empty_queue_witness :
  queue (world_with ∅) = ∅ ∧
  requests (Schedule.replayQueuedRequests (browser true true [])
              (world_with ∅)).2 = [] ∧
  toasts (Schedule.replayQueuedRequests (browser true true [])
            (world_with ∅)).2 = [] ∧
  stores (Schedule.replayQueuedRequests (browser true true [])
            (world_with ∅)).2 = stores (world_with ∅) ∧
  queue (Schedule.replayQueuedRequests (browser true true [])
           (world_with ∅)).2 = ∅.
Proof.
  split; [reflexivity|].
  apply (replay_empty_queue (browser true true []) (world_with ∅));
    reflexivity.
Defined.

Lemma replay_sends_one_request_per_entry_witness :
  ∃ sent,
    requests (Schedule.replayQueuedRequests (browser true true ["B"])
                (world_with two_entries)).2 = [] ++ sent ∧
    NoDup sent ∧
    length sent = size (queue (world_with two_entries)) ∧
    ∀ r, r ∈ sent ↔
         ∃ url method, queue (world_with two_entries) !! url = Some method ∧
                       r = mkRequest method url true None.
Proof.
  apply (replay_sends_one_request_per_entry (browser true true ["B"])
           (world_with two_entries)); reflexivity.
Defined.

(** The two requests sent for [{A→GET, B→PUT}]. *)
Example replay_requests_of_two_entries :
  requests (Schedule.replayQueuedRequests (browser true true ["B"])
              (world_with two_entries)).2 =
  [mkRequest "GET" "A" true None; mkRequest "PUT" "B" true None].
Proof. by vm_compute. Qed.

(** ** Further properties of [replayQueuedRequests] *)

Section ReplayFurther.

Variable env : Env.
Variable w : World.

Let w1 : World := (Schedule.replayQueuedRequests env w).2.

(** X1. A replay never adds an entry to the queue and never changes the
    method of one, whatever the store and the requests answer. *)
Theorem replay_never_grows_queue : queue w1 ⊆ queue w.
Proof.
  subst w1.
  destruct (serviceWorker env) eqn:Hsw; [|by rewrite replay_no_capability].
  destruct (open_ok env QUEUE) eqn:Hopen; [|by rewrite replay_open_failed].
  destruct (forEach_ok env QUEUE) eqn:Hread; [|by rewrite replay_read_failed].
  apply map_subseteq_spec. intros url method.
  rewrite replay_queue_lookup by done.
  destruct (queue w !! url) as [m|]; [|done].
  by destruct (replayed env QUEUE (url, m)).
Qed.

(** X2. When the store opens and its read by [db.forEach] is rejected, the
    call ends as for a store that does not open: no request, the stores as
    they were, and the failure message alone. *)
Theorem replay_store_read_failure :
  serviceWorker env = true →
  open_ok env QUEUE = true →
  forEach_ok env QUEUE = false →
  requests w1 = requests w ∧
  stores w1 = stores w ∧
  toasts w1 = toasts w ++ ["Offline changes could not be applied to My Schedule."].
Proof.
  intros Hsw Hopen Hread. subst w1. by rewrite replay_read_failed.
Qed.

(** X3. When the request of an entry is answered with success and the
    deletion of the entry is then rejected, the request was sent, the
    entry is still queued, and the call shows the failure message. *)
Theorem replay_delete_failure_keeps_entry url method :
  serviceWorker env = true →
  open_ok env QUEUE = true →
  forEach_ok env QUEUE = true →
  queue w !! url = Some method →
  xhr_ok env (mkRequest method url true None) = true →
  delete_ok env QUEUE url = false →
  mkRequest method url true None ∈ requests w1 ∧
  queue w1 !! url = Some method ∧
  toasts w1 = toasts w ++ ["Offline changes could not be applied to My Schedule."].
Proof.
  intros Hsw Hopen Hread Hq Hxhr Hdel.
  assert (replayed env QUEUE (url, method) = false) as Hfail.
  { unfold replayed, request_of. cbn [fst snd]. by rewrite Hxhr, Hdel. }
  subst w1. split; [|split].
  - rewrite replay_run by done. cbn [snd requests].
    apply elem_of_app. right. apply list_elem_of_fmap.
    exists (url, method). split; [done|by apply cursor_elem].
  - by rewrite replay_queue_lookup, Hq, Hfail.
  - rewrite replay_run by done. cbn [snd toasts]. f_equal.
    unfold replay_toasts.
    destruct (cursor env (queue w)) as [|e l] eqn:Hl.
    + apply cursor_nil in Hl. by rewrite Hl, lookup_empty in Hq.
    + rewrite <- Hl. destruct (forallb _ _) eqn:Hall; [|done].
      rewrite (proj1 (forallb_cursor_replayed env (queue w) QUEUE) Hall _ _ Hq)
        in Hfail.
      discriminate.
Qed.

Variable env2 : Env.

Let w2 : World := (Schedule.replayQueuedRequests env2 w1).2.

(** X4. After a replay in which every entry went through, another replay
    sends no request, shows no notification and leaves the stores as they
    are, whatever the requests would now answer. *)
Theorem replay_again_after_success :
  serviceWorker env = true →
  open_ok env QUEUE = true →
  forEach_ok env QUEUE = true →
  (∀ url method, queue w !! url = Some method →
     replayed env QUEUE (url, method) = true) →
  open_ok env2 QUEUE = true →
  forEach_ok env2 QUEUE = true →
  requests w2 = requests w1 ∧
  toasts w2 = toasts w1 ∧
  stores w2 = stores w1.
Proof.
  intros Hsw Hopen Hread Hall Hopen2 Hread2.
  assert (queue w1 = ∅) as Hempty.
  { apply map_eq. intros url. subst w1.
    rewrite replay_queue_lookup, lookup_empty by done.
    destruct (queue w !! url) as [method|] eqn:Hq; [|done].
    by rewrite (Hall url method Hq). }
  subst w2.
  destruct (serviceWorker env2) eqn:Hsw2; [|by rewrite replay_no_capability].
  rewrite replay_run by done. cbn [snd stores requests toasts].
  rewrite (proj2 (cursor_nil env2 (queue w1)) Hempty). simpl.
  by rewrite !app_nil_r.
Qed.

(** X5. The next replay sends a request for exactly the entries whose
    replay did not go through the first time: each of them once, with its
    method and URL, authenticated and without payload. *)
Theorem replay_retries_what_failed :
  serviceWorker env = true →
  open_ok env QUEUE = true →
  forEach_ok env QUEUE = true →
  serviceWorker env2 = true →
  open_ok env2 QUEUE = true →
  forEach_ok env2 QUEUE = true →
  ∃ sent,
    requests w2 = requests w1 ++ sent ∧
    NoDup sent ∧
    ∀ r, r ∈ sent ↔
         ∃ url method, queue w !! url = Some method ∧
                       replayed env QUEUE (url, method) = false ∧
                       r = mkRequest method url true None.
Proof.
  intros Hsw Hopen Hread Hsw2 Hopen2 Hread2.
  exists (request_of <$> cursor env2 (queue w1)). subst w2.
  rewrite replay_run by done. split; [done|]. split.
  - apply NoDup_fmap_2; [|apply cursor_NoDup].
    intros [u1 m1] [u2 m2] Heq. unfold request_of in Heq. simpl in Heq.
    congruence.
  - intros r. rewrite list_elem_of_fmap. split.
    + intros ([url method] & -> & Hin). apply cursor_elem in Hin.
      subst w1. rewrite replay_queue_lookup in Hin by done.
      destruct (queue w !! url) as [m|] eqn:Hq; [|done].
      destruct (replayed env QUEUE (url, m)) eqn:Hr; [done|].
      injection Hin as <-. by exists url, m.
    + intros (url & method & Hq & Hr & ->). exists (url, method).
      split; [done|]. apply cursor_elem. subst w1.
      by rewrite replay_queue_lookup, Hq, Hr.
Qed.

End ReplayFurther.

(** ** [generateFilters] *)

Section GenerateFilters.

Variable engine : Engine.

Lemma compare_tags_le a b :
  (compare_tags a b ≤ 0)%Z ↔ (order_in_category a ≤ order_in_category b)%Z.
Proof. unfold compare_tags. repeat case_decide; lia. Qed.

Lemma compare_tags_consistent : consistent_compare compare_tags.
Proof.
  split.
  - intros a b. unfold compare_tags. repeat case_decide; lia.
  - intros a b c. rewrite !compare_tags_le. lia.
Qed.

(** [Object.keys(tags).map(tag => tags[tag])] are the values of [tags]. *)
Lemma object_values_perm {A} (o : gmap string A) :
  omap (λ key, o !! key) (Object_keys engine o) ≡ₚ (map_to_list o).*2.
Proof.
  rewrite (Object_keys_perm engine A o).
  assert (∀ l : list (string * A),
            (∀ k v, (k, v) ∈ l → o !! k = Some v) →
            omap (λ key, o !! key) l.*1 = l.*2) as Hl.
  { induction l as [|[k v] l IH]; intros Hin; [done|]. csimpl.
    rewrite (Hin k v) by left. rewrite IH; [done|].
    intros k' v' Hin'. apply Hin. by right. }
  rewrite Hl; [done|]. intros k v. apply elem_of_map_to_list.
Qed.

Lemma of_category_cons c t l :
  of_category c (t :: l) =
  if decide (tag_category t = c) then t :: of_category c l else of_category c l.
Proof. unfold of_category. by rewrite filter_cons. Qed.

(** The loop sorts the names into the three lists and drops the rest. *)
Lemma push_tags fs l :
  foldl push_tag fs l =
  mkFilters (filterSessionTypes fs ++ (tag_name <$> of_category "TYPE" l))
            (filterThemes fs ++ (tag_name <$> of_category "THEME" l))
            (filterTopics fs ++ (tag_name <$> of_category "TOPIC" l)).
Proof.
  revert fs. induction l as [|t l IH]; intros fs; simpl.
  - rewrite !app_nil_r. by destruct fs.
  - rewrite IH, !of_category_cons. unfold push_tag.
    repeat case_decide; try congruence; simpl; by rewrite <- ?app_assoc.
Qed.

Lemma sorted_of_category c (l : list Tag) :
  StronglySorted (λ a b, (compare_tags a b ≤ 0)%Z) l →
  StronglySorted (λ a b, (order_in_category a ≤ order_in_category b)%Z)
                 (of_category c l).
Proof.
  induction 1 as [|t l _ IH Hall]; [constructor|].
  rewrite of_category_cons. case_decide; [|done].
  constructor; [done|].
  apply Forall_forall. intros t' Hin. apply compare_tags_le.
  rewrite Forall_forall in Hall. apply Hall.
  unfold of_category in Hin. by apply list_elem_of_filter in Hin as [_ ?].
Qed.

Lemma generateFilters_lists tags c :
  lists_category (map_to_list tags).*2 c
    (tag_name <$> of_category c
       (Array_sort engine compare_tags
          (omap (λ key, tags !! key) (Object_keys engine tags)))).
Proof.
  eexists. split; [done|]. split.
  - unfold of_category. by rewrite Array_sort_perm, object_values_perm.
  - apply sorted_of_category, Array_sort_sorted, compare_tags_consistent.
Qed.

(** X7. Each list returned by [generateFilters] holds the names of the
    tags of its category (TYPE, THEME, TOPIC), one per tag, by ascending
    [order_in_category]. *)
Theorem generateFilters_by_category tags :
  let out := generateFilters engine (Some tags) in
  let all := (map_to_list tags).*2 in
  lists_category all "TYPE" (filterSessionTypes out) ∧
  lists_category all "THEME" (filterThemes out) ∧
  lists_category all "TOPIC" (filterTopics out).
Proof.
  unfold generateFilters. rewrite push_tags. simpl.
  split; [|split]; apply generateFilters_lists.
Qed.

(** X8. The three lists together have one name for each tag of a known
    category, so no more names than tags; tags of any other category are
    left out. *)
Theorem generateFilters_counts tags :
  let out := generateFilters engine (Some tags) in
  let all := (map_to_list tags).*2 in
  (length (filterSessionTypes out) + length (filterThemes out) +
     length (filterTopics out) =
   length (filter (λ t, tag_category t ∈ ["TYPE"; "THEME"; "TOPIC"]) all))%nat ∧
  (length (filterSessionTypes out) + length (filterThemes out) +
     length (filterTopics out) ≤ size tags)%nat.
Proof.
  unfold generateFilters. rewrite push_tags. simpl.
  set (sorted := Array_sort engine compare_tags _).
  assert (sorted ≡ₚ (map_to_list tags).*2) as Hp.
  { subst sorted. by rewrite Array_sort_perm, object_values_perm. }
  assert (∀ l : list Tag,
            (length (of_category "TYPE" l) + length (of_category "THEME" l) +
               length (of_category "TOPIC" l) =
             length (filter (λ t, tag_category t ∈ ["TYPE"; "THEME"; "TOPIC"]) l))%nat)
    as Hcount.
  { induction l as [|t l IH]; [done|].
    rewrite !of_category_cons, filter_cons.
    repeat case_decide; simpl; try lia; try congruence; exfalso;
      repeat match goal with
             | H : _ ∈ _ :: _ |- _ => apply elem_of_cons in H as [H|H]
             | H : _ ∈ [] |- _ => by apply elem_of_nil in H
             | H : _ ∉ _ |- _ => apply H; set_solver
             end; congruence. }
  rewrite !length_fmap, Hcount, Hp. split; [done|].
  rewrite <- (length_map_to_list tags), <- (length_fmap snd (map_to_list tags)).
  apply length_filter.
Qed.

(** Called without tags, or with none, [generateFilters] returns three
    empty lists. *)
Lemma generateFilters_no_tags :
  generateFilters engine None = mkFilters [] [] [] ∧
  generateFilters engine (Some ∅) = mkFilters [] [] [].
Proof.
  assert (generateFilters engine (Some ∅) = mkFilters [] [] []) as H.
  { unfold generateFilters. rewrite push_tags. simpl.
    set (sorted := Array_sort engine compare_tags _).
    assert (sorted ≡ₚ []) as Hp.
    { subst sorted. rewrite Array_sort_perm, object_values_perm.
      by rewrite map_to_list_empty. }
    apply Permutation_nil_r in Hp. by rewrite Hp. }
  split; [|done]. exact H.
Qed.

End GenerateFilters.

(** X9. When no two tags of one category have the same
    [order_in_category], the filters do not depend on the engine: neither
    on its order of the keys nor on its sorting. *)
Theorem generateFilters_engine_independent engine1 engine2 tags :
  (∀ key1 key2 tag1 tag2,
     key1 ≠ key2 →
     tags !! key1 = Some tag1 →
     tags !! key2 = Some tag2 →
     tag_category tag1 = tag_category tag2 →
     order_in_category tag1 ≠ order_in_category tag2) →
  generateFilters engine1 (Some tags) = generateFilters engine2 (Some tags).
Proof.
  intros Hdistinct.
  assert (∀ c names1 names2,
            lists_category (map_to_list tags).*2 c names1 →
            lists_category (map_to_list tags).*2 c names2 →
            names1 = names2) as Huniq.
  { intros c names1 names2 (ts1 & -> & Hp1 & Hs1) (ts2 & -> & Hp2 & Hs2).
    f_equal. eapply StronglySorted_unique_strong; [|done|done|by rewrite Hp1, Hp2].
    intros t1 t2 Hin1 Hin2 Hle1 Hle2.
    rewrite Hp1 in Hin1. rewrite Hp2 in Hin2.
    unfold of_category in Hin1, Hin2.
    apply list_elem_of_filter in Hin1 as [Hc1 Hin1].
    apply list_elem_of_filter in Hin2 as [Hc2 Hin2].
    apply list_elem_of_fmap in Hin1 as ([k1 t1'] & -> & Hin1).
    apply list_elem_of_fmap in Hin2 as ([k2 t2'] & -> & Hin2).
    apply elem_of_map_to_list in Hin1, Hin2. simpl in *.
    destruct (decide (k1 = k2)) as [->|Hne]; [congruence|].
    destruct (Hdistinct k1 k2 t1' t2' Hne Hin1 Hin2); [congruence|lia]. }
  unfold generateFilters. rewrite !push_tags. simpl.
  f_equal; eapply Huniq; apply generateFilters_lists.
Qed.

(** ** [fetchSchedule] and [getSessionById] *)

(** The request of the schedule. *)
Lemma schedule_request_run sv a :
  request sv (λ _, schedule_response sv) "GET" "api/v1/schedule" false None a =
  (if xhr_ok (base sv) (mkRequest "GET" "api/v1/schedule" false None)
   then Returned (schedule_response sv)
   else Threw (xhr_failure sv (mkRequest "GET" "api/v1/schedule" false None)),
   set_world (log_request (mkRequest "GET" "api/v1/schedule" false None)) a).
Proof.
  unfold request, xhrPromise, xhr_answer. simpl.
  by destruct (xhr_ok (base sv) _).
Qed.

Lemma fetchSchedule_run sv a :
  fetchSchedule sv a =
  match scheduleData_ (this a) with
  | Some d => (Returned d, a)
  | None =>
      let r := mkRequest "GET" "api/v1/schedule" false None in
      if xhr_ok (base sv) r
      then (Returned (schedule_response sv),
            set_this (with_scheduleData_ (Some (schedule_response sv)))
                     (set_world (log_request r) a))
      else (Threw (xhr_failure sv r), set_world (log_request r) a)
  end.
Proof.
  unfold fetchSchedule. destruct (scheduleData_ (this a)); [done|].
  unfold and_then.
  change (ToString (Schedule.static_get "SCHEDULE_ENDPOINT")) with "api/v1/schedule".
  rewrite schedule_request_run. by destruct (xhr_ok (base sv) _).
Qed.

(** X10. Once [fetchSchedule] has been fulfilled, every later call is
    fulfilled with the same schedule, sends no request and changes
    nothing, whatever the network would answer then. *)
Theorem fetchSchedule_caches sv sv2 a d :
  (fetchSchedule sv a).1 = Returned d →
  fetchSchedule sv2 (fetchSchedule sv a).2 = (Returned d, (fetchSchedule sv a).2).
Proof.
  rewrite (fetchSchedule_run sv a).
  destruct (scheduleData_ (this a)) as [d0|] eqn:Hd.
  - simpl. intros [= <-]. by rewrite fetchSchedule_run, Hd.
  - cbv zeta. destruct (xhr_ok (base sv) _); simpl; [|done].
    intros [= <-]. by rewrite fetchSchedule_run.
Qed.

(** X11. When no schedule is loaded and the request fails, [fetchSchedule]
    is rejected with what the request was rejected with, the instance
    stays without schedule, and the one request sent was an
    unauthenticated GET of the schedule endpoint without payload; a later
    call asks again. *)
Theorem fetchSchedule_failure_not_cached sv a :
  scheduleData_ (this a) = None →
  xhr_ok (base sv) (mkRequest "GET" "api/v1/schedule" false None) = false →
  (fetchSchedule sv a).1 =
    Threw (xhr_failure sv (mkRequest "GET" "api/v1/schedule" false None)) ∧
  this (fetchSchedule sv a).2 = this a ∧
  requests (world (fetchSchedule sv a).2) =
    requests (world a) ++ [mkRequest "GET" "api/v1/schedule" false None] ∧
  requests (world (fetchSchedule sv (fetchSchedule sv a).2).2) =
    requests (world a) ++ [mkRequest "GET" "api/v1/schedule" false None;
                           mkRequest "GET" "api/v1/schedule" false None].
Proof.
  intros Hd Hxhr. rewrite (fetchSchedule_run sv a), Hd. cbv zeta.
  rewrite Hxhr. cbn [fst snd]. split; [done|]. split; [done|]. split; [done|].
  rewrite fetchSchedule_run. cbn [this set_world]. rewrite Hd. cbv zeta.
  rewrite Hxhr. cbn [snd world set_world log_request requests].
  by rewrite <- app_assoc.
Qed.

Lemma first_session_spec sessionId l :
  match first_session sessionId l with
  | Some session =>
      ∃ before after,
        l = before ++ session :: after ∧
        session_id session = sessionId ∧
        ∀ s, s ∈ before → session_id s ≠ sessionId
  | None => ∀ s, s ∈ l → session_id s ≠ sessionId
  end.
Proof.
  induction l as [|x l IH]; simpl.
  - intros s Hs. by apply elem_of_nil in Hs.
  - destruct (decide (session_id x = sessionId)) as [Hx|Hx].
    + exists [], l. split; [done|]. split; [done|].
      intros s Hs. by apply elem_of_nil in Hs.
    + destruct (first_session sessionId l) as [session|].
      * destruct IH as (before & after & -> & Hid & Hbefore).
        exists (x :: before), after. split; [done|]. split; [done|].
        intros s Hs. apply elem_of_cons in Hs as [->|Hs]; auto.
      * intros s Hs. apply elem_of_cons in Hs as [->|Hs]; auto.
Qed.

(** X12. With a schedule loaded, [getSessionById] changes nothing and
    returns the first session of the schedule that has the id asked for,
    and [null] exactly when no session has it. *)
Theorem getSessionById_first_match a d sessionId :
  scheduleData_ (this a) = Some d →
  ∃ found,
    getSessionById sessionId a = (Returned found, a) ∧
    match found with
    | Some session =>
        ∃ before after,
          sessions d = before ++ session :: after ∧
          session_id session = sessionId ∧
          ∀ s, s ∈ before → session_id s ≠ sessionId
    | None => ∀ s, s ∈ sessions d → session_id s ≠ sessionId
    end.
Proof.
  intros Hd. exists (first_session sessionId (sessions d)). split.
  - unfold getSessionById. by rewrite Hd.
  - apply first_session_spec.
Qed.

(** X13. On an instance without schedule [getSessionById] throws a
    TypeError; after a [fetchSchedule] that was fulfilled it returns, for
    every id, a session of the answer with that id or [null]. *)
Theorem getSessionById_needs_schedule sv a sessionId :
  scheduleData_ (this a) = None →
  (∃ message, getSessionById sessionId a = (Threw (JsError "TypeError" message), a)) ∧
  (xhr_ok (base sv) (mkRequest "GET" "api/v1/schedule" false None) = true →
   ∃ found,
     (and_then (fetchSchedule sv) (λ _, getSessionById sessionId) a).1 = Returned found ∧
     match found with
     | Some session =>
         session ∈ sessions (schedule_response sv) ∧ session_id session = sessionId
     | None => ∀ s, s ∈ sessions (schedule_response sv) → session_id s ≠ sessionId
     end).
Proof.
  intros Hd. split.
  - unfold getSessionById. rewrite Hd. by eexists.
  - intros Hxhr. unfold and_then. rewrite fetchSchedule_run, Hd. cbv zeta.
    rewrite Hxhr. unfold getSessionById. simpl.
    eexists. split; [done|].
    pose proof (first_session_spec sessionId (sessions (schedule_response sv))) as H.
    destruct (first_session _ _) as [session|]; [|done].
    destruct H as (before & after & -> & Hid & _). split; [|done].
    apply elem_of_app. right. by left.
Qed.

(** ** [schedulePromise] and [resolveSchedulePromise] *)

Lemma resolveSchedulePromise_run data a :
  resolveSchedulePromise data a =
  match scheduleDeferredPromiseResolver (this a) with
  | None =>
      schedule_loaded data
        (set_deferreds (λ ds, ds ++ [Some data])
           (set_this (with_scheduleDeferred (length (deferreds a))) a))
  | Some k => resolve_deferred k data a
  end.
Proof.
  unfold resolveSchedulePromise.
  destruct (scheduleDeferredPromiseResolver (this a)) as [k|] eqn:Hk.
  - by rewrite Hk.
  - unfold createScheduleDeferred_, resolve_deferred. simpl.
    rewrite lookup_app_r by done. rewrite Nat.sub_diag. simpl.
    unfold schedule_loaded, set_deferreds, set_this, set_template. simpl.
    do 2 f_equal.
    rewrite insert_app_r_alt by done. by rewrite Nat.sub_diag.
Qed.

Lemma deferred_state_schedulePromise a r :
  deferred_state a r → deferred_state (schedulePromise a).2 r.
Proof.
  unfold deferred_state, schedulePromise. intros (Heq & Hr). rewrite Heq.
  destruct r as [d|].
  - destruct Hr as (? & ? & Hk & ?). rewrite Hk. simpl. by rewrite Heq, Hk.
  - destruct Hr as (? & ? & [[Hk Hds]|[Hk Hds]]); rewrite Hk; simpl.
    + unfold createScheduleDeferred_. rewrite Hds. simpl.
      repeat split; try done. right. by split.
    + rewrite Heq, Hk. repeat split; try done. right. by split.
Qed.

Lemma deferred_state_resolve a r data :
  deferred_state a r →
  deferred_state (resolveSchedulePromise data a)
                 (match r with Some d => Some d | None => Some data end).
Proof.
  unfold deferred_state. intros (Heq & Hr). rewrite resolveSchedulePromise_run.
  destruct r as [d|].
  - destruct Hr as (? & ? & Hk & Hds). rewrite Hk.
    unfold resolve_deferred. rewrite Hds. simpl. by rewrite Heq, Hk, Hds.
  - destruct Hr as (? & ? & [[Hk Hds]|[Hk Hds]]); rewrite Hk.
    + simpl. rewrite Hds. by repeat split.
    + unfold resolve_deferred. rewrite Hds. simpl. rewrite ?Hds. by repeat split.
Qed.

Lemma deferred_state_calls cs a r :
  deferred_state a r →
  deferred_state (foldl run_deferred_call a cs)
                 (match r with Some d => Some d | None => first_resolution cs end).
Proof.
  revert a r. induction cs as [|c cs IH]; intros a r Ha; simpl.
  { by destruct r. }
  destruct c as [|data]; simpl.
  - apply IH. by apply deferred_state_schedulePromise.
  - apply (deferred_state_resolve a r data) in Ha. apply IH in Ha.
    by destruct r.
Qed.

(** X14. Whatever calls of [schedulePromise] and [resolveSchedulePromise]
    are made on a new instance, in whatever order, the deferred is made
    at most once, both fields of the instance name it, and the schedule
    loaded (on the instance and in the template) is that of the first
    [resolveSchedulePromise]: a later resolution changes nothing. *)
Theorem schedule_deferred_first_resolution_wins cs :
  let a := foldl run_deferred_call new_app cs in
  (length (deferreds a) ≤ 1)%nat ∧
  scheduleDeferredPromise (this a) = scheduleDeferredPromiseResolver (this a) ∧
  scheduleData_ (this a) = loaded_scheduleData <$> first_resolution cs ∧
  app_scheduleData (template a) = loaded_scheduleData <$> first_resolution cs.
Proof.
  assert (deferred_state new_app None) as H0.
  { repeat split. left. by split. }
  apply (deferred_state_calls cs) in H0.
  destruct H0 as (Heq & Hr). cbv zeta.
  destruct (first_resolution cs) as [d|]; simpl.
  - destruct Hr as (? & ? & ? & ->). by repeat split.
  - destruct Hr as (? & ? & [[_ ->]|[_ ->]]); repeat split; try done; simpl; lia.
Qed.

(** X15. When the deferred of the instance is not yet resolved,
    [resolveSchedulePromise] loads its schedule on the instance and in
    the template and sets the three filter lists, without any request;
    [fetchSchedule] then answers with that schedule from the instance and
    sends no request either, also over a schedule fetched before. *)
Theorem resolveSchedulePromise_loads sv data a :
  schedule_pending a →
  let a1 := resolveSchedulePromise data a in
  scheduleData_ (this a1) = Some (loaded_scheduleData data) ∧
  app_scheduleData (template a1) = Some (loaded_scheduleData data) ∧
  app_filterSessionTypes (template a1) = filterSessionTypes (loaded_tags data) ∧
  app_filterThemes (template a1) = filterThemes (loaded_tags data) ∧
  app_filterTopics (template a1) = filterTopics (loaded_tags data) ∧
  world a1 = world a ∧
  fetchSchedule sv a1 = (Returned (loaded_scheduleData data), a1).
Proof.
  intros Hpending. cbv zeta.
  assert (resolveSchedulePromise data a =
          schedule_loaded data (resolveSchedulePromise data a)) as Hrun.
  { rewrite resolveSchedulePromise_run.
    destruct (scheduleDeferredPromiseResolver (this a)) as [k|] eqn:Hk.
    - unfold resolve_deferred. by rewrite (Hpending k Hk).
    - done. }
  assert (world (resolveSchedulePromise data a) = world a) as Hworld.
  { rewrite resolveSchedulePromise_run.
    destruct (scheduleDeferredPromiseResolver (this a)) as [k|] eqn:Hk.
    - unfold resolve_deferred. by rewrite (Hpending k Hk).
    - done. }
  rewrite Hrun. by repeat split.
Qed.

(** X16. Before any resolution, the promise given by [schedulePromise] is
    pending; [resolveSchedulePromise] fulfils that very promise with its
    schedule, and a [schedulePromise] made after the resolution gives the
    same promise, fulfilled. *)
Theorem schedulePromise_is_what_is_resolved cs data :
  first_resolution cs = None →
  let a := foldl run_deferred_call new_app cs in
  ∃ k,
    (schedulePromise a).1 = Some k ∧
    promise_value (schedulePromise a).2 k = None ∧
    promise_value (resolveSchedulePromise data (schedulePromise a).2) k =
      Some (loaded_scheduleData data) ∧
    (schedulePromise (resolveSchedulePromise data a)).1 = Some k ∧
    promise_value (schedulePromise (resolveSchedulePromise data a)).2 k =
      Some (loaded_scheduleData data).
Proof.
  intros Hnone. cbv zeta.
  assert (deferred_state new_app None) as H0.
  { repeat split. left. by split. }
  apply (deferred_state_calls cs) in H0. rewrite Hnone in H0.
  set (a := foldl run_deferred_call new_app cs) in *.
  pose proof (deferred_state_schedulePromise a None H0) as H1.
  pose proof (deferred_state_resolve _ None data H1) as H2.
  pose proof (deferred_state_resolve a None data H0) as H3.
  pose proof (deferred_state_schedulePromise _ _ H3) as H4.
  exists 0.
  assert (∀ b r, deferred_state b r →
            (r = None → scheduleDeferredPromiseResolver (this b) = Some 0 →
               promise_value b 0 = None) ∧
            (∀ d, r = Some d →
               scheduleDeferredPromise (this b) = Some 0 ∧
               promise_value b 0 = Some (loaded_scheduleData d))) as Hread.
  { intros b r (Heq & Hr). unfold promise_value. split.
    - intros -> Hk. destruct Hr as (_ & _ & [[Hk' _]|[_ ->]]); [congruence|done].
    - intros d ->. destruct Hr as (_ & _ & Hk & ->). by rewrite Heq, Hk. }
  assert (scheduleDeferredPromiseResolver (this (schedulePromise a).2) = Some 0) as Hk.
  { destruct H0 as (Heq & _ & _ & [[Hk Hds]|[Hk Hds]]);
      unfold schedulePromise; rewrite Heq, Hk; [|done].
    unfold createScheduleDeferred_. by rewrite Hds. }
  split.
  { change ((schedulePromise a).1)
      with (scheduleDeferredPromise (this (schedulePromise a).2)).
    destruct H1 as (Heq & _). by rewrite Heq. }
  split; [by apply (proj1 (Hread _ _ H1))|].
  split; [by apply (proj2 (Hread _ _ H2) data)|].
  destruct (proj2 (Hread _ _ H3) data eq_refl) as [Hp Hv].
  split.
  - unfold schedulePromise. by rewrite Hp.
  - by apply (proj2 (Hread _ _ H4) data).
Qed.

(** ** [saveSession] *)

Lemma saveSession_run sv sessionId save a :
  saveSession sv sessionId save a =
  let a1 := log_call (WaitForSignedIn "Sign in to add events to My Schedule")
              (log_call (TrackEvent "session" "bookmark" (if save then "save" else "remove")) a) in
  match signIn sv "Sign in to add events to My Schedule" with
  | Returned _ =>
      let a2 := log_call (ToggleSession sessionId save)
                  (set_template (with_app_scheduleFetchingUserData true) a1) in
      match toggleSession_result sv sessionId save with
      | Returned _ => (Returned VUndefined, set_this (with_cache_userSavedSessions []) a2)
      | Threw error =>
          (Returned VUndefined,
           set_world (log_toast (thrown_string error +:+
                                 " The change will be retried on your next visit.")) a2)
      | Pending => (Pending, a2)
      end
  | Threw error => (Threw error, a1)
  | Pending => (Pending, a1)
  end.
Proof.
  unfold saveSession, and_then, or_catch, service, template_set, toast,
    clearCachedUserSchedule. simpl.
  destruct (signIn sv _) as [[]|error|]; try done.
  by destruct (toggleSession_result sv sessionId save) as [[]|error|].
Qed.

(** X17. Once the user is signed in, [saveSession] is never rejected.
    When [toggleSession] fails, the error is shown in one toast, followed
    by ' The change will be retried on your next visit.', the promise is
    fulfilled and the instance is as before; when it succeeds, the cached
    saved sessions are emptied and nothing is shown.  In all cases
    [app.scheduleFetchingUserData] is set and stays [true]. *)
Theorem saveSession_signed_in sv sessionId save a :
  signIn sv "Sign in to add events to My Schedule" = Returned tt →
  let r := saveSession sv sessionId save a in
  (∀ error, r.1 ≠ Threw error) ∧
  app_scheduleFetchingUserData (template r.2) = true ∧
  match toggleSession_result sv sessionId save with
  | Returned _ =>
      r.1 = Returned VUndefined ∧
      cache_userSavedSessions (this r.2) = [] ∧
      toasts (world r.2) = toasts (world a)
  | Threw error =>
      r.1 = Returned VUndefined ∧
      this r.2 = this a ∧
      toasts (world r.2) =
        toasts (world a) ++
        [thrown_string error +:+ " The change will be retried on your next visit."]
  | Pending =>
      r.1 = Pending ∧ this r.2 = this a ∧ toasts (world r.2) = toasts (world a)
  end.
Proof.
  intros Hsign. cbv zeta. rewrite saveSession_run, Hsign. cbv zeta.
  destruct (toggleSession_result sv sessionId save) as [[]|error|]; by repeat split.
Qed.

(** X18. [saveSession] tracks the analytics event before it waits for the
    sign-in: when the sign-in is rejected or does not settle, the event
    was tracked all the same, [toggleSession] is not called, nothing is
    shown, the instance and the template are as before, and the promise
    ends as the sign-in did. *)
Theorem saveSession_not_signed_in sv sessionId save a :
  signIn sv "Sign in to add events to My Schedule" ≠ Returned tt →
  let r := saveSession sv sessionId save a in
  r.1 = match signIn sv "Sign in to add events to My Schedule" with
        | Returned _ => Returned VUndefined
        | Threw error => Threw error
        | Pending => Pending
        end ∧
  calls r.2 =
    calls a ++ [TrackEvent "session" "bookmark" (if save then "save" else "remove");
                WaitForSignedIn "Sign in to add events to My Schedule"] ∧
  this r.2 = this a ∧
  template r.2 = template a ∧
  world r.2 = world a.
Proof.
  intros Hsign. cbv zeta. rewrite saveSession_run. cbv zeta.
  destruct (signIn sv _) as [[]|error|]; [done| |];
    simpl; by rewrite <- app_assoc.
Qed.

(** ** [submitSessionRequest] and [saveSurvey] *)

Lemma request_run {A} sv (body : Request → A) method url auth payload a :
  request sv body method url auth payload a =
  (if xhr_ok (base sv) (mkRequest method url auth payload)
   then Returned (body (mkRequest method url auth payload))
   else Threw (xhr_failure sv (mkRequest method url auth payload)),
   set_world (log_request (mkRequest method url auth payload)) a).
Proof.
  unfold request, xhrPromise, xhr_answer. simpl.
  by destruct (xhr_ok (base sv) _).
Qed.

Lemma submitSessionRequest_failure_run {A} sv (body : Request → A)
    url method payload errorMsg callback a error :
  (and_then (request sv body method url true payload) callback a).1 = Threw error →
  (serviceWorker (base sv) = true → progress_event_defined sv = true) →
  submitSessionRequest sv body url method payload errorMsg callback a =
  (Threw error,
   set_world
     (log_toast
        (if serviceWorker (base sv) && is_progress_event error
         then errorMsg +:+ " The change will be retried on your next visit."
         else errorMsg))
     (and_then (request sv body method url true payload) callback a).2).
Proof.
  intros Hfail Hdefined. unfold submitSessionRequest, or_catch.
  destruct (and_then _ _ a) as [res a1]. simpl in Hfail. subst res.
  unfold and_then, toast, throw. cbn [snd].
  destruct (serviceWorker (base sv)); [|done].
  rewrite Hdefined by done. by destruct (is_progress_event error).
Qed.

(** X19. When the request of [submitSessionRequest] or the callback run
    on its answer fails, one toast is shown: [errorMsg], followed by
    ' The change will be retried on your next visit.' exactly when service
    workers are supported and the failure is a network event; the promise
    is rejected with the same error.  (The browser defines
    [XMLHttpRequestProgressEvent] if it supports service workers.) *)
Theorem submitSessionRequest_on_failure {A} sv (body : Request → A)
    url method payload errorMsg callback a error :
  (and_then (request sv body method url true payload) callback a).1 = Threw error →
  (serviceWorker (base sv) = true → progress_event_defined sv = true) →
  let r := submitSessionRequest sv body url method payload errorMsg callback a in
  let a1 := (and_then (request sv body method url true payload) callback a).2 in
  r.1 = Threw error ∧
  toasts (world r.2) =
    toasts (world a1) ++
    [if serviceWorker (base sv) && is_progress_event error
     then errorMsg +:+ " The change will be retried on your next visit."
     else errorMsg] ∧
  this r.2 = this a1 ∧ template r.2 = template a1 ∧ calls r.2 = calls a1 ∧
  requests (world r.2) = requests (world a1).
Proof.
  intros Hfail Hdefined. cbv zeta.
  by rewrite (submitSessionRequest_failure_run sv body) with (error := error).
Qed.

(** X20. In a browser that supports service workers and does not define
    [XMLHttpRequestProgressEvent], a failure of the request or of the
    callback shows no toast, and the promise is rejected with a
    ReferenceError in place of the error. *)
Theorem submitSessionRequest_without_progress_event {A} sv (body : Request → A)
    url method payload errorMsg callback a error :
  (and_then (request sv body method url true payload) callback a).1 = Threw error →
  serviceWorker (base sv) = true →
  progress_event_defined sv = false →
  ∃ message,
    submitSessionRequest sv body url method payload errorMsg callback a =
    (Threw (JsError "ReferenceError" message),
     (and_then (request sv body method url true payload) callback a).2) ∧
    toasts (world (submitSessionRequest sv body url method payload errorMsg callback a).2) =
    toasts (world (and_then (request sv body method url true payload) callback a).2).
Proof.
  intros Hfail Hsw Hdefined. eexists.
  unfold submitSessionRequest, or_catch.
  destruct (and_then _ _ a) as [res a1]. simpl in Hfail. subst res.
  unfold and_then, throw. cbn [snd]. by rewrite Hsw, Hdefined.
Qed.

Lemma saveSurvey_run sv sessionId answers a :
  saveSurvey sv sessionId answers a =
  let a1 := log_call (WaitForSignedIn "Sign in to submit feedback")
              (log_call (TrackEvent "session" "rate" sessionId) a) in
  match signIn sv "Sign in to submit feedback" with
  | Returned _ =>
      submitSessionRequest sv (survey_response sv)
        ("api/v1/user/survey/" +:+ sessionId) "PUT" (Some answers)
        "Unable to save feedback results."
        (λ response,
           and_then (template_set (with_app_savedSurveys response)) (λ _,
           service (MarkSessionRated sessionId) (Returned VUndefined)))
        a1
  | Threw error => (Threw error, a1)
  | Pending => (Pending, a1)
  end.
Proof.
  unfold saveSurvey, and_then at 1 2, service at 1 2. simpl.
  by destruct (signIn sv _) as [[]|error|].
Qed.

(** X21. Signed in, [saveSurvey] sends one request: a PUT of the answers
    to the survey endpoint of the session, authenticated.  The request
    that [replayQueuedRequests] sends for the queue entry of that URL and
    method is the same but for the payload: the answers are not in it. *)
Theorem saveSurvey_request_and_its_replay sv env sessionId answers a w :
  signIn sv "Sign in to submit feedback" = Returned tt →
  serviceWorker env = true →
  open_ok env QUEUE = true →
  forEach_ok env QUEUE = true →
  queue w = {[ "api/v1/user/survey/" +:+ sessionId := "PUT" ]} →
  requests (world (saveSurvey sv sessionId answers a).2) =
    requests (world a) ++
    [mkRequest "PUT" ("api/v1/user/survey/" +:+ sessionId) true (Some answers)] ∧
  requests (Schedule.replayQueuedRequests env w).2 =
    requests w ++
    [mkRequest "PUT" ("api/v1/user/survey/" +:+ sessionId) true None].
Proof.
  intros Hsign Hsw Hopen Hread Hq. split.
  - rewrite saveSurvey_run, Hsign. cbv zeta.
    unfold submitSessionRequest, or_catch, and_then at 1.
    rewrite request_run.
    destruct (xhr_ok (base sv) _); [done|].
    unfold and_then, toast, throw. simpl.
    destruct (serviceWorker (base sv)); [|done].
    destruct (progress_event_defined sv); [|done].
    by destruct (is_progress_event _).
  - rewrite replay_run by done. cbn [snd requests]. f_equal.
    pose proof (cursor_perm env (queue w)) as Hp.
    rewrite Hq, map_to_list_singleton in Hp.
    apply Permutation_singleton_r in Hp. rewrite Hq. by rewrite Hp.
Qed.


(** ** [bookmarkSessionNotification] *)

Lemma bookmarkSessionNotification_run sv saved opt_message a :
  bookmarkSessionNotification sv saved opt_message a =
  if saved then
    let flag := app_dontAutoSubscribe (template a) in
    let a1 := log_call (SubscribePromise flag) a in
    match subscribe_result sv flag with
    | Returned _ =>
        (Returned VUndefined,
         set_world (log_toast ("Added to My Schedule. " +:+ bookmark_message opt_message)) a1)
    | Threw error =>
        (Returned VUndefined,
         set_world
           (log_toast (if thrown_named "AbortError" error
                       then "Added to My Schedule. Want to enable notifications?"
                       else "Added to My Schedule."))
           (set_template (with_app_dontAutoSubscribe true) a1))
    | Pending => (Pending, a1)
    end
  else (Returned VUndefined, set_world (log_toast "Removed from My Schedule") a).
Proof.
  unfold bookmarkSessionNotification, bookmark_message.
  destruct saved; [|done].
  unfold or_catch, and_then, service, toast, template_set. simpl.
  destruct (subscribe_result sv _) as [[]|error|]; try done.
  by destruct (thrown_named "AbortError" error).
Qed.

(** X23. [bookmarkSessionNotification] is never rejected and shows one
    toast, no more and no less, unless the push subscription does not
    settle, when it shows none.  For a session that was removed the toast
    is 'Removed from My Schedule' and no subscription is asked for. *)
Theorem bookmarkSessionNotification_one_toast sv saved opt_message a :
  let r := bookmarkSessionNotification sv saved opt_message a in
  (∀ error, r.1 ≠ Threw error) ∧
  ∃ shown,
    toasts (world r.2) = toasts (world a) ++ shown ∧
    (r.1 = Pending → shown = []) ∧
    (r.1 ≠ Pending → ∃ text, shown = [text]) ∧
    (saved = false → shown = ["Removed from My Schedule"] ∧ calls r.2 = calls a).
Proof.
  cbv zeta. rewrite bookmarkSessionNotification_run.
  destruct saved; cbv zeta.
  - destruct (subscribe_result sv _) as [[]|error|]; (split; [done|]).
    + eexists. split; [done|]. repeat split; try done. by eexists.
    + eexists. split; [done|]. repeat split; try done. by eexists.
    + exists []. simpl. rewrite app_nil_r. by repeat split.
  - split; [done|]. eexists. split; [done|]. repeat split; try done. by eexists.
Qed.

(** X24. For a saved session: when the subscription succeeds the toast
    is 'Added to My Schedule. ' and the message, which is the default
    "You'll get a notification when it starts." also for an empty
    message, and [app.dontAutoSubscribe] is as before; when it fails,
    [app.dontAutoSubscribe] becomes [true] and the toast asks to enable
    notifications exactly for an error named 'AbortError'. *)
Theorem bookmarkSessionNotification_saved sv opt_message a :
  let r := bookmarkSessionNotification sv true opt_message a in
  let message :=
    match opt_message with
    | Some m => if decide (m = "") then "You'll get a notification when it starts." else m
    | None => "You'll get a notification when it starts."
    end in
  calls r.2 = calls a ++ [SubscribePromise (app_dontAutoSubscribe (template a))] ∧
  match subscribe_result sv (app_dontAutoSubscribe (template a)) with
  | Returned _ =>
      toasts (world r.2) = toasts (world a) ++ ["Added to My Schedule. " +:+ message] ∧
      template r.2 = template a
  | Threw error =>
      app_dontAutoSubscribe (template r.2) = true ∧
      toasts (world r.2) =
        toasts (world a) ++
        [if thrown_named "AbortError" error
         then "Added to My Schedule. Want to enable notifications?"
         else "Added to My Schedule."]
  | Pending => template r.2 = template a ∧ toasts (world r.2) = toasts (world a)
  end.
Proof.
  cbv zeta. rewrite bookmarkSessionNotification_run. cbv zeta.
  destruct (subscribe_result sv _) as [[]|error|]; by repeat split.
Qed.

(** ** [clearUserSchedule] *)

(** X25. [clearUserSchedule] empties [app.savedSessions] and then throws
    a TypeError on [Schedule.updateSavedSessionsUI], which the class does
    not have: the cache of the instance is not cleared. *)
Theorem clearUserSchedule_throws a :
  ∃ message,
    (clearUserSchedule a).1 = Threw (JsError "TypeError" message) ∧
    app_savedSessions (template (clearUserSchedule a).2) = [] ∧
    this (clearUserSchedule a).2 = this a.
Proof. eexists. by repeat split. Qed.

(** ** The callbacks of [loadUserSchedule] *)

Lemma findIndex_bounds {A} (p : A → bool) l :
  findIndex p l = (-1)%Z ∨ (0 ≤ findIndex p l < Z.of_nat (length l))%Z.
Proof.
  induction l as [|x l IH]; simpl; [by left|].
  destruct (p x); [right; lia|].
  destruct (decide (findIndex p l = -1)%Z); [by left|right; lia].
Qed.

Lemma findIndex_absent {A} (p : A → bool) l :
  findIndex p l = (-1)%Z ↔ ∀ x, x ∈ l → p x = false.
Proof.
  induction l as [|x l IH]; simpl.
  - split; [|done]. intros _ y Hy. by apply elem_of_nil in Hy.
  - destruct (p x) eqn:Hx.
    + split; [done|]. intros H. specialize (H x). rewrite Hx in H.
      discriminate H. by left.
    + destruct (decide (findIndex p l = -1)%Z) as [Hi|Hi].
      * split; [|done]. intros _ y Hy.
        apply elem_of_cons in Hy as [->|Hy]; [done|]. by apply IH.
      * pose proof (findIndex_bounds p l) as Hb. split; [lia|].
        intros H. destruct Hi. apply IH. intros y Hy. apply H. by right.
Qed.

Lemma findIndex_present {A} (p : A → bool) l :
  findIndex p l ≠ (-1)%Z →
  ∃ x, l !! Z.to_nat (findIndex p l) = Some x ∧ p x = true ∧
       ∀ y, y ∈ take (Z.to_nat (findIndex p l)) l → p y = false.
Proof.
  induction l as [|x l IH]; simpl; [done|].
  destruct (p x) eqn:Hx.
  - intros _. exists x. simpl. split; [done|]. split; [done|].
    intros y Hy. by apply elem_of_nil in Hy.
  - destruct (decide (findIndex p l = -1)%Z) as [Hi|Hi]; [done|]. intros _.
    destruct (IH Hi) as (y & Hy & Hpy & Hbefore).
    pose proof (findIndex_bounds p l) as Hb.
    replace (Z.to_nat (findIndex p l + 1)) with (S (Z.to_nat (findIndex p l))) by lia.
    exists y. simpl. split; [done|]. split; [done|].
    intros z Hz. apply elem_of_cons in Hz as [->|Hz]; auto.
Qed.

Lemma indexOf_absent x l : indexOf x l = (-1)%Z ↔ x ∉ l.
Proof.
  unfold indexOf. rewrite findIndex_absent. split.
  - intros H Hin. specialize (H x Hin). by apply bool_decide_eq_false in H.
  - intros H y Hy. apply bool_decide_eq_false. by intros ->.
Qed.

Lemma indexOf_present x l :
  indexOf x l ≠ (-1)%Z → l !! Z.to_nat (indexOf x l) = Some x.
Proof.
  intros H. destruct (findIndex_present _ l H) as (y & Hy & Hp & _).
  apply bool_decide_eq_true in Hp. by subst y.
Qed.

(** Removing the first [x] of a list without repetition removes [x]. *)
Lemma delete_index_NoDup (l : list string) i x :
  l !! i = Some x → NoDup l →
  NoDup (delete i l) ∧ (x ∉ delete i l) ∧
  ∀ y, y ≠ x → (y ∈ delete i l ↔ y ∈ l).
Proof.
  intros Hi Hnd. rewrite delete_take_drop.
  rewrite <- (take_drop_middle l i x Hi) in Hnd.
  apply NoDup_app in Hnd as (Hnd1 & Hdisj & Hnd2).
  apply NoDup_cons in Hnd2 as [Hx Hnd2].
  split; [|split].
  - apply NoDup_app. split; [done|]. split; [|done].
    intros y Hy1 Hy2. apply (Hdisj y Hy1). by right.
  - intros Hin. apply elem_of_app in Hin as [Hin|Hin]; [|done].
    apply (Hdisj x Hin). by left.
  - intros y Hne. rewrite <- (take_drop_middle l i x Hi) at 3.
    rewrite !elem_of_app, elem_of_cons. tauto.
Qed.

Lemma on_session_update_run sv sessionId data a d :
  app_scheduleData (template a) = Some d →
  let saved := app_savedSessions (template a) in
  let a0 := set_template (with_app_scheduleFetchingUserData false) a in
  let index := findIndex (λ session, bool_decide (session_id session = sessionId))
                 (sessions d) in
  let flag v :=
    TemplateSetFlag ("app.scheduleData.sessions." +:+ pretty index +:+ ".saved") v in
  on_session_update sv sessionId data a =
  (Returned VUndefined,
   if bool_decide (data = Some true) && bool_decide (indexOf sessionId saved = -1)%Z
   then (debug_log sv ("Session " +:+ sessionId +:+ " bookmarked!")
           (log_call (flag true)
              (set_template (with_app_savedSessions (saved ++ [sessionId])) a0))).2
   else if bool_decide (data = Some false) && bool_decide (indexOf sessionId saved ≠ -1)%Z
   then (debug_log sv ("Session " +:+ sessionId +:+ " removed from bookmarks!")
           (log_call (flag false)
              (set_template (with_app_savedSessions
                               (delete (Z.to_nat (indexOf sessionId saved)) saved)) a0))).2
   else a0).
Proof.
  intros Hd. cbv zeta.
  unfold on_session_update, and_then, template_set, session_index, ret,
    set_session_flag, service, debug_log. simpl. rewrite Hd.
  destruct (bool_decide (data = Some true) && _).
  { by destruct (decide (window_ENV sv ≠ "prod")). }
  destruct (bool_decide (data = Some false) && _); [|done].
  by destruct (decide (window_ENV sv ≠ "prod")).
Qed.

Lemma debug_log_template sv text a :
  template (debug_log sv text a).2 = template a.
Proof. unfold debug_log. by destruct (decide _). Qed.

(** X26. With a schedule in the template and no session twice in
    [app.savedSessions], the callback of the bookmark updates keeps the
    list without repetition and makes it hold the session exactly as the
    update says: in it after an update that bookmarks, out of it after
    one that does not, as before without data; no other session enters or
    leaves. *)
Theorem on_session_update_bookmarks sv sessionId data a d :
  app_scheduleData (template a) = Some d →
  NoDup (app_savedSessions (template a)) →
  let r := on_session_update sv sessionId data a in
  let saved := app_savedSessions (template a) in
  let saved' := app_savedSessions (template r.2) in
  r.1 = Returned VUndefined ∧
  NoDup saved' ∧
  (∀ other, other ≠ sessionId → (other ∈ saved' ↔ other ∈ saved)) ∧
  (sessionId ∈ saved' ↔
   match data with
   | Some true => True
   | Some false => False
   | None => sessionId ∈ saved
   end).
Proof.
  intros Hd Hnd. cbv zeta. rewrite (on_session_update_run sv sessionId data a d Hd).
  cbv zeta. cbn [fst snd]. split; [done|].
  destruct data as [[|]|]; simpl.
  - case_bool_decide as Hi; simpl; rewrite ?debug_log_template; simpl.
    + apply indexOf_absent in Hi. split; [|split].
      * apply NoDup_app. split; [done|]. split; [|apply NoDup_singleton].
        intros y Hy Hy'. apply list_elem_of_singleton in Hy'. by subst y.
      * intros other Hne. rewrite elem_of_app, list_elem_of_singleton. tauto.
      * rewrite elem_of_app, list_elem_of_singleton. tauto.
    + split; [done|]. split; [done|]. split; [done|]. intros _.
      destruct (decide (sessionId ∈ app_savedSessions (template a))) as [|Hn];
        [done|].
      by apply indexOf_absent in Hn.
  - case_bool_decide as Hi; simpl; rewrite ?debug_log_template; simpl.
    + pose proof (indexOf_present _ _ Hi) as Hlook.
      destruct (delete_index_NoDup _ _ _ Hlook Hnd) as (Hnd' & Hout & Hother).
      split; [done|]. split; [done|]. tauto.
    + split; [done|]. split; [done|]. split; [|done].
      intros Hin. by apply indexOf_absent in Hi.
  - by repeat split.
Qed.

(** X27. Under the same conditions a second delivery of the same update
    changes nothing at all: what the first one left is left as it is. *)
Theorem on_session_update_idempotent sv sessionId data a d :
  app_scheduleData (template a) = Some d →
  NoDup (app_savedSessions (template a)) →
  let r := on_session_update sv sessionId data a in
  on_session_update sv sessionId data r.2 = (Returned VUndefined, r.2).
Proof.
  intros Hd Hnd. cbv zeta.
  rewrite (on_session_update_run sv sessionId data a d Hd). cbv zeta. cbn [snd].
  assert (∀ text b, app_scheduleData (template (debug_log sv text b).2) =
                    app_scheduleData (template b)) as Hdbg.
  { intros. by rewrite debug_log_template. }
  destruct data as [[|]|]; simpl.
  - case_bool_decide as Hi; simpl.
    + rewrite (on_session_update_run sv sessionId (Some true) _ d)
        by (by rewrite Hdbg).
      cbv zeta. rewrite debug_log_template. simpl.
      assert (indexOf sessionId (app_savedSessions (template a) ++ [sessionId])
              ≠ (-1)%Z) as Hin.
      { rewrite indexOf_absent. intros H. apply H, elem_of_app. right. by left. }
      rewrite (bool_decide_eq_false_2 _ Hin). simpl. f_equal. unfold debug_log.
      by destruct (decide (window_ENV sv ≠ "prod")).
    + rewrite (on_session_update_run sv sessionId (Some true) _ d) by done.
      cbv zeta. simpl. rewrite (bool_decide_eq_false_2 _ Hi). simpl.
      by destruct a as [? ? [] ? ?].
  - case_bool_decide as Hi; simpl.
    + pose proof (indexOf_present _ _ Hi) as Hlook.
      destruct (delete_index_NoDup _ _ _ Hlook Hnd) as (_ & Hout & _).
      rewrite (on_session_update_run sv sessionId (Some false) _ d)
        by (by rewrite Hdbg).
      cbv zeta. rewrite debug_log_template. simpl.
      apply indexOf_absent in Hout.
      rewrite (bool_decide_eq_false_2 (_ ≠ _) (λ H, H Hout)). simpl. f_equal. unfold debug_log.
      by destruct (decide (window_ENV sv ≠ "prod")).
    + rewrite (on_session_update_run sv sessionId (Some false) _ d) by done.
      cbv zeta. simpl. rewrite (bool_decide_eq_false_2 (_ ≠ _) (λ H, H Hi)). simpl.
      by destruct a as [? ? [] ? ?].
  - rewrite (on_session_update_run sv sessionId None _ d) by done.
    cbv zeta. simpl. by destruct a as [? ? [] ? ?].
Qed.

(** X28. A bookmark update for a session that is not yet saved appends
    the session to [app.savedSessions] and sets the [saved] flag at the
    index of the first session of the schedule with that id.  For an id
    that no session of the schedule has, the session is appended all the
    same, and the flag is set at index -1. *)
Theorem on_session_update_flag_index sv sessionId a d :
  app_scheduleData (template a) = Some d →
  sessionId ∉ app_savedSessions (template a) →
  let r := on_session_update sv sessionId (Some true) a in
  app_savedSessions (template r.2) = app_savedSessions (template a) ++ [sessionId] ∧
  ∃ index : Z,
    TemplateSetFlag ("app.scheduleData.sessions." +:+ pretty index +:+ ".saved") true
      ∈ calls r.2 ∧
    (index = (-1)%Z ↔ ∀ s, s ∈ sessions d → session_id s ≠ sessionId) ∧
    (index ≠ (-1)%Z →
     ∃ s, sessions d !! Z.to_nat index = Some s ∧ session_id s = sessionId ∧
          ∀ s', s' ∈ take (Z.to_nat index) (sessions d) → session_id s' ≠ sessionId).
Proof.
  intros Hd Hout. cbv zeta.
  rewrite (on_session_update_run sv sessionId (Some true) a d Hd). cbv zeta.
  apply indexOf_absent in Hout. rewrite Hout. simpl.
  rewrite debug_log_template. simpl. split; [done|].
  set (p := λ session, bool_decide (session_id session = sessionId)).
  exists (findIndex p (sessions d)). split; [|split].
  - unfold debug_log.
    destruct (decide (window_ENV sv ≠ "prod")); simpl;
      rewrite ?elem_of_app, !list_elem_of_singleton; tauto.
  - rewrite findIndex_absent. subst p. simpl.
    split; intros H s Hs; specialize (H s Hs).
    + by apply bool_decide_eq_false in H.
    + by apply bool_decide_eq_false.
  - intros Hi. destruct (findIndex_present p _ Hi) as (s & Hs & Hp & Hbefore).
    exists s. split; [done|]. subst p. simpl in *.
    split; [by apply bool_decide_eq_true in Hp|].
    intros s' Hs'. specialize (Hbefore s' Hs').
    by apply bool_decide_eq_false in Hbefore.
Qed.

Lemma on_feedback_update_run sv sessionId a d :
  app_scheduleData (template a) = Some d →
  let saved := app_savedSurveys (template a) in
  let index := findIndex (λ session, bool_decide (session_id session = sessionId))
                 (sessions d) in
  on_feedback_update sv sessionId a =
  (Returned VUndefined,
   if bool_decide (indexOf sessionId saved = -1)%Z
   then (debug_log sv ("Session " +:+ sessionId +:+ " has received feedback!")
           (log_call
              (TemplateSetFlag
                 ("app.scheduleData.sessions." +:+ pretty index +:+ ".rated") true)
              (set_template (with_app_savedSurveys (saved ++ [sessionId])) a))).2
   else a).
Proof.
  intros Hd. cbv zeta.
  unfold on_feedback_update, and_then, template_set, session_index, ret,
    set_session_flag, service, debug_log. simpl. rewrite Hd.
  destruct (bool_decide _); [|done].
  by destruct (decide (window_ENV sv ≠ "prod")).
Qed.

(** X29. With a schedule in the template and no session twice in
    [app.savedSurveys], the callback of the feedback updates keeps the
    list without repetition, has the session in it afterwards, lets no
    other session enter or leave, leaves [app.savedSessions] alone, and
    changes nothing when the same update is delivered again. *)
Theorem on_feedback_update_rated sv sessionId a d :
  app_scheduleData (template a) = Some d →
  NoDup (app_savedSurveys (template a)) →
  let r := on_feedback_update sv sessionId a in
  let saved := app_savedSurveys (template a) in
  let saved' := app_savedSurveys (template r.2) in
  r.1 = Returned VUndefined ∧
  NoDup saved' ∧
  sessionId ∈ saved' ∧
  (∀ other, other ≠ sessionId → (other ∈ saved' ↔ other ∈ saved)) ∧
  app_savedSessions (template r.2) = app_savedSessions (template a) ∧
  on_feedback_update sv sessionId r.2 = (Returned VUndefined, r.2).
Proof.
  intros Hd Hnd. cbv zeta.
  rewrite (on_feedback_update_run sv sessionId a d Hd). cbv zeta. cbn [fst snd].
  split; [done|].
  case_bool_decide as Hi; simpl.
  - rewrite debug_log_template. simpl. apply indexOf_absent in Hi.
    split; [|split; [|split; [|split]]].
    + apply NoDup_app. split; [done|]. split; [|apply NoDup_singleton].
      intros y Hy Hy'. apply list_elem_of_singleton in Hy'. by subst y.
    + apply elem_of_app. right. by left.
    + intros other Hne. rewrite elem_of_app, list_elem_of_singleton. tauto.
    + done.
    + rewrite (on_feedback_update_run sv sessionId _ d)
        by (by rewrite debug_log_template).
      cbv zeta. rewrite debug_log_template. simpl.
      assert (indexOf sessionId (app_savedSurveys (template a) ++ [sessionId])
              ≠ (-1)%Z) as Hin.
      { rewrite indexOf_absent. intros H. apply H, elem_of_app. right. by left. }
      by rewrite (bool_decide_eq_false_2 _ Hin).
  - split; [done|]. split.
    { destruct (decide (sessionId ∈ app_savedSurveys (template a))) as [|Hn];
        [done|].
      by apply indexOf_absent in Hn. }
    split; [done|]. split; [done|].
    rewrite (on_feedback_update_run sv sessionId _ d) by done. cbv zeta.
    by rewrite (bool_decide_eq_false_2 _ Hi).
Qed.

(** X30. Without a schedule in the template both callbacks throw a
    TypeError: the one of the bookmark updates after it has reset
    [app.scheduleFetchingUserData] and nothing else, the one of the
    feedback updates without any change. *)
Theorem update_callbacks_need_schedule sv sessionId data a :
  app_scheduleData (template a) = None →
  (∃ message,
     on_session_update sv sessionId data a =
     (Threw (JsError "TypeError" message),
      set_template (with_app_scheduleFetchingUserData false) a)) ∧
  (∃ message,
     on_feedback_update sv sessionId a = (Threw (JsError "TypeError" message), a)).
Proof.
  intros Hd. split; eexists.
  - unfold on_session_update, and_then, template_set, session_index, throw.
    simpl. by rewrite Hd.
  - unfold on_feedback_update, and_then, session_index, throw. by rewrite Hd.
Qed.

(** ** The further properties at concrete inputs *)

Lemma replay_store_read_failure_witness :
  forEach_ok (faulty_browser false [] []) QUEUE = false ∧
  requests (Schedule.replayQueuedRequests (faulty_browser false [] [])
              (world_with two_entries)).2 = [] ∧
  stores (Schedule.replayQueuedRequests (faulty_browser false [] [])
            (world_with two_entries)).2 = stores (world_with two_entries) ∧
  toasts (Schedule.replayQueuedRequests (faulty_browser false [] [])
            (world_with two_entries)).2 =
    ["Offline changes could not be applied to My Schedule."].
Proof.
  split; [reflexivity|].
  apply (replay_store_read_failure (faulty_browser false [] [])
           (world_with two_entries)); reflexivity.
Defined.

Lemma replay_delete_failure_keeps_entry_witness :
  delete_ok (faulty_browser true [] ["B"]) QUEUE "B" = false ∧
  mkRequest "PUT" "B" true None ∈
    requests (Schedule.replayQueuedRequests (faulty_browser true [] ["B"])
                (world_with two_entries)).2 ∧
  queue (Schedule.replayQueuedRequests (faulty_browser true [] ["B"])
           (world_with two_entries)).2 !! "B" = Some "PUT" ∧
  toasts (Schedule.replayQueuedRequests (faulty_browser true [] ["B"])
            (world_with two_entries)).2 =
    ["Offline changes could not be applied to My Schedule."].
Proof.
  split; [reflexivity|].
  apply (replay_delete_failure_keeps_entry (faulty_browser true [] ["B"])
           (world_with two_entries) "B" "PUT"); reflexivity.
Defined.

Lemma replay_again_after_success_witness :
  requests (Schedule.replayQueuedRequests (browser true true ["A"])
              (Schedule.replayQueuedRequests (browser true true [])
                 (world_with two_entries)).2).2 =
  requests (Schedule.replayQueuedRequests (browser true true [])
              (world_with two_entries)).2 ∧
  toasts (Schedule.replayQueuedRequests (browser true true ["A"])
            (Schedule.replayQueuedRequests (browser true true [])
               (world_with two_entries)).2).2 =
  toasts (Schedule.replayQueuedRequests (browser true true [])
            (world_with two_entries)).2 ∧
  stores (Schedule.replayQueuedRequests (browser true true ["A"])
            (Schedule.replayQueuedRequests (browser true true [])
               (world_with two_entries)).2).2 =
  stores (Schedule.replayQueuedRequests (browser true true [])
            (world_with two_entries)).2.
Proof.
  apply (replay_again_after_success (browser true true [])
           (world_with two_entries) (browser true true ["A"]));
    reflexivity.
Defined.

Lemma replay_retries_what_failed_witness :
  ∃ sent,
    requests (Schedule.replayQueuedRequests (browser true true [])
                (Schedule.replayQueuedRequests (browser true true ["B"])
                   (world_with two_entries)).2).2 =
    requests (Schedule.replayQueuedRequests (browser true true ["B"])
                (world_with two_entries)).2 ++ sent ∧
    NoDup sent ∧
    ∀ r, r ∈ sent ↔
         ∃ url method, queue (world_with two_entries) !! url = Some method ∧
                       replayed (browser true true ["B"]) QUEUE (url, method) = false ∧
                       r = mkRequest method url true None.
Proof.
  apply (replay_retries_what_failed (browser true true ["B"])
           (world_with two_entries) (browser true true [])); reflexivity.
Defined.

Lemma replay_other_stores_witness :
  stores (Schedule.replayQueuedRequests (browser true true [])
            (mkWorld {[ QUEUE := two_entries; "other" := one_survey ]} [] [] [])).2
    !! "other" = Some one_survey.
Proof.
  rewrite (replay_other_stores (browser true true [])
             (mkWorld {[ QUEUE := two_entries; "other" := one_survey ]} [] [] [])
             "other"); [reflexivity|discriminate].
Defined.

Lemma generateFilters_engine_independent_witness :
  generateFilters merge_engine (Some some_tags) =
  generateFilters reverse_engine (Some some_tags).
Proof.
  apply (generateFilters_engine_independent merge_engine reverse_engine some_tags).
  intros key1 key2 tag1 tag2 Hne H1 H2 Hcat Hord.
  apply elem_of_map_to_list in H1, H2.
  set (l := map_to_list some_tags) in H1, H2. vm_compute in l. subst l.
  repeat match goal with
         | H : _ ∈ _ :: _ |- _ => apply elem_of_cons in H as [H|H]
         | H : _ ∈ [] |- _ => by apply elem_of_nil in H
         | H : (_, _) = (_, _) |- _ => injection H as -> ->
         end;
    try (by destruct Hne); simpl in *; congruence.
Defined.

Lemma fetchSchedule_caches_witness :
  fetchSchedule offline (fetchSchedule online new_app).2 =
  (Returned sample_schedule, (fetchSchedule online new_app).2).
Proof.
  apply (fetchSchedule_caches online offline new_app sample_schedule).
  reflexivity.
Defined.

Lemma fetchSchedule_failure_not_cached_witness :
  (fetchSchedule offline new_app).1 = Threw NetworkEvent ∧
  this (fetchSchedule offline new_app).2 = this new_app ∧
  requests (world (fetchSchedule offline new_app).2) =
    [mkRequest "GET" "api/v1/schedule" false None] ∧
  requests (world (fetchSchedule offline (fetchSchedule offline new_app).2).2) =
    [mkRequest "GET" "api/v1/schedule" false None;
     mkRequest "GET" "api/v1/schedule" false None].
Proof.
  apply (fetchSchedule_failure_not_cached offline new_app); reflexivity.
Defined.

Lemma getSessionById_first_match_witness :
  ∃ found,
    getSessionById "s1" loaded_app = (Returned found, loaded_app) ∧
    match found with
    | Some session =>
        ∃ before after,
          sessions sample_schedule = before ++ session :: after ∧
          session_id session = "s1" ∧
          ∀ s, s ∈ before → session_id s ≠ "s1"
    | None => ∀ s, s ∈ sessions sample_schedule → session_id s ≠ "s1"
    end.
Proof.
  apply (getSessionById_first_match loaded_app sample_schedule "s1").
  reflexivity.
Defined.

Lemma getSessionById_needs_schedule_witness :
  (∃ message,
     getSessionById "s2" new_app = (Threw (JsError "TypeError" message), new_app)) ∧
  (∃ found,
     (and_then (fetchSchedule online) (λ _, getSessionById "s2") new_app).1 =
       Returned found ∧
     match found with
     | Some session =>
         session ∈ sessions (schedule_response online) ∧ session_id session = "s2"
     | None => ∀ s, s ∈ sessions (schedule_response online) → session_id s ≠ "s2"
     end).
Proof.
  destruct (getSessionById_needs_schedule online new_app "s2" eq_refl) as [H1 H2].
  split; [exact H1|exact (H2 eq_refl)].
Defined.

Lemma resolveSchedulePromise_loads_witness :
  scheduleData_ (this (resolveSchedulePromise
                         (mkLoaded sample_schedule (mkFilters ["Sessions"] [] []))
                         new_app)) = Some sample_schedule ∧
  fetchSchedule offline
    (resolveSchedulePromise (mkLoaded sample_schedule (mkFilters ["Sessions"] [] []))
       new_app) =
  (Returned sample_schedule,
   resolveSchedulePromise (mkLoaded sample_schedule (mkFilters ["Sessions"] [] []))
     new_app).
Proof.
  assert (schedule_pending new_app) as Hpending by (intros k Hk; discriminate Hk).
  pose proof (resolveSchedulePromise_loads offline
                (mkLoaded sample_schedule (mkFilters ["Sessions"] [] []))
                new_app Hpending) as H.
  split; [apply H|apply H].
Defined.

Lemma schedulePromise_is_what_is_resolved_witness :
  ∃ k,
    (schedulePromise (foldl run_deferred_call new_app [CallSchedulePromise])).1 = Some k ∧
    promise_value
      (schedulePromise (foldl run_deferred_call new_app [CallSchedulePromise])).2 k = None ∧
    promise_value
      (resolveSchedulePromise (mkLoaded sample_schedule (mkFilters [] [] []))
         (schedulePromise (foldl run_deferred_call new_app [CallSchedulePromise])).2) k =
      Some sample_schedule ∧
    (schedulePromise
       (resolveSchedulePromise (mkLoaded sample_schedule (mkFilters [] [] []))
          (foldl run_deferred_call new_app [CallSchedulePromise]))).1 = Some k ∧
    promise_value
      (schedulePromise
         (resolveSchedulePromise (mkLoaded sample_schedule (mkFilters [] [] []))
            (foldl run_deferred_call new_app [CallSchedulePromise]))).2 k =
      Some sample_schedule.
Proof.
  apply (schedulePromise_is_what_is_resolved [CallSchedulePromise]
           (mkLoaded sample_schedule (mkFilters [] [] []))).
  reflexivity.
Defined.

Lemma saveSession_signed_in_witness :
  (saveSession offline "s1" true loaded_app).1 = Returned VUndefined ∧
  this (saveSession offline "s1" true loaded_app).2 = this loaded_app ∧
  toasts (world (saveSession offline "s1" true loaded_app).2) =
    ["Offline. The change will be retried on your next visit."].
Proof.
  pose proof (saveSession_signed_in offline "s1" true loaded_app eq_refl) as H.
  apply H.
Defined.

Lemma saveSession_not_signed_in_witness :
  (saveSession signed_out "s1" true loaded_app).1 =
    Threw (JsError "Error" "sign-in cancelled") ∧
  calls (saveSession signed_out "s1" true loaded_app).2 =
    [TrackEvent "session" "bookmark" "save";
     WaitForSignedIn "Sign in to add events to My Schedule"] ∧
  this (saveSession signed_out "s1" true loaded_app).2 = this loaded_app ∧
  template (saveSession signed_out "s1" true loaded_app).2 = template loaded_app ∧
  world (saveSession signed_out "s1" true loaded_app).2 = world loaded_app.
Proof.
  apply (saveSession_not_signed_in signed_out "s1" true loaded_app).
  discriminate.
Defined.

Lemma submitSessionRequest_on_failure_witness :
  (submitSessionRequest offline (λ _, VUndefined) "api/v1/user/survey/42" "PUT"
     None "Unable to save." (λ v, ret v) new_app).1 = Threw NetworkEvent ∧
  toasts (world (submitSessionRequest offline (λ _, VUndefined)
                   "api/v1/user/survey/42" "PUT" None "Unable to save."
                   (λ v, ret v) new_app).2) =
    ["Unable to save. The change will be retried on your next visit."].
Proof.
  pose proof (submitSessionRequest_on_failure offline (λ _, VUndefined)
                "api/v1/user/survey/42" "PUT" None "Unable to save."
                (λ v, ret v) new_app NetworkEvent eq_refl (λ _, eq_refl)) as H.
  split; apply H.
Defined.

Lemma submitSessionRequest_without_progress_event_witness :
  ∃ message,
    submitSessionRequest offline_without_progress_event (λ _, VUndefined)
      "api/v1/user/survey/42" "PUT" None "Unable to save." (λ v, ret v) new_app =
    (Threw (JsError "ReferenceError" message),
     (and_then (request offline_without_progress_event (λ _, VUndefined) "PUT"
                  "api/v1/user/survey/42" true None) (λ v, ret v) new_app).2) ∧
    toasts (world (submitSessionRequest offline_without_progress_event
                     (λ _, VUndefined) "api/v1/user/survey/42" "PUT" None
                     "Unable to save." (λ v, ret v) new_app).2) =
    toasts (world (and_then (request offline_without_progress_event
                               (λ _, VUndefined) "PUT" "api/v1/user/survey/42"
                               true None) (λ v, ret v) new_app).2).
Proof.
  apply (submitSessionRequest_without_progress_event
           offline_without_progress_event (λ _, VUndefined)
           "api/v1/user/survey/42" "PUT" None "Unable to save." (λ v, ret v)
           new_app NetworkEvent); reflexivity.
Defined.

Lemma saveSurvey_request_and_its_replay_witness :
  requests (world (saveSurvey offline "42" (VString "5 stars") new_app).2) =
    [mkRequest "PUT" "api/v1/user/survey/42" true (Some (VString "5 stars"))] ∧
  requests (Schedule.replayQueuedRequests (browser true true [])
              (world_with one_survey)).2 =
    [mkRequest "PUT" "api/v1/user/survey/42" true None].
Proof.
  apply (saveSurvey_request_and_its_replay offline (browser true true []) "42"
           (VString "5 stars") new_app (world_with one_survey));
    reflexivity.
Defined.


Lemma on_session_update_bookmarks_witness :
  NoDup (app_savedSessions (template (on_session_update online "s2" (Some false)
                                        loaded_app).2)) ∧
  "s2" ∉ app_savedSessions (template (on_session_update online "s2" (Some false)
                                        loaded_app).2).
Proof.
  assert (NoDup (app_savedSessions (template loaded_app))) as Hnd.
  { apply NoDup_singleton. }
  pose proof (on_session_update_bookmarks online "s2" (Some false) loaded_app
                sample_schedule eq_refl Hnd) as (_ & H1 & _ & H2).
  split; [exact H1|]. intros Hin. by apply H2.
Defined.

Lemma on_session_update_idempotent_witness :
  on_session_update online "s1" (Some true)
    (on_session_update online "s1" (Some true) loaded_app).2 =
  (Returned VUndefined, (on_session_update online "s1" (Some true) loaded_app).2).
Proof.
  apply (on_session_update_idempotent online "s1" (Some true) loaded_app
           sample_schedule); [reflexivity|apply NoDup_singleton].
Defined.

Lemma on_session_update_flag_index_witness :
  app_savedSessions (template (on_session_update online "unknown" (Some true)
                                 loaded_app).2) = ["s2"; "unknown"] ∧
  ∃ index : Z,
    TemplateSetFlag ("app.scheduleData.sessions." +:+ pretty index +:+ ".saved") true
      ∈ calls (on_session_update online "unknown" (Some true) loaded_app).2 ∧
    (index = (-1)%Z ↔
     ∀ s, s ∈ sessions sample_schedule → session_id s ≠ "unknown") ∧
    (index ≠ (-1)%Z →
     ∃ s, sessions sample_schedule !! Z.to_nat index = Some s ∧
          session_id s = "unknown" ∧
          ∀ s', s' ∈ take (Z.to_nat index) (sessions sample_schedule) →
                session_id s' ≠ "unknown").
Proof.
  apply (on_session_update_flag_index online "unknown" loaded_app sample_schedule).
  - reflexivity.
  - intros Hin. apply list_elem_of_singleton in Hin. discriminate Hin.
Defined.

Lemma on_feedback_update_rated_witness :
  "s1" ∈ app_savedSurveys (template (on_feedback_update online "s1" loaded_app).2) ∧
  on_feedback_update online "s1" (on_feedback_update online "s1" loaded_app).2 =
  (Returned VUndefined, (on_feedback_update online "s1" loaded_app).2).
Proof.
  assert (NoDup (app_savedSurveys (template loaded_app))) as Hnd.
  { apply NoDup_singleton. }
  pose proof (on_feedback_update_rated online "s1" loaded_app sample_schedule
                eq_refl Hnd) as (_ & _ & H1 & _ & _ & H2).
  split; [exact H1|exact H2].
Defined.

Lemma update_callbacks_need_schedule_witness :
  (∃ message,
     on_session_update online "s1" (Some true) new_app =
     (Threw (JsError "TypeError" message),
      set_template (with_app_scheduleFetchingUserData false) new_app)) ∧
  (∃ message,
     on_feedback_update online "s1" new_app =
     (Threw (JsError "TypeError" message), new_app)).
Proof.
  apply (update_callbacks_need_schedule online "s1" (Some true) new_app).
  reflexivity.
Defined.
